(** * Cafe directory: a shallow embedding of [main.py] and its request
      handling contracts.

    The application is a Flask program over one SQLAlchemy table.  The
    embedding keeps the pieces the handlers are written with:

    - Python [str] values are [string]s holding the UTF-8 bytes of the text,
      so that the literal ['£'] is the two bytes it is in the source file;
    - the [cafes] table is the list of its rows in storage order, with the
      schema's primary key and [unique] constraint enforced at commit;
    - a view function is a computation in a small state-and-exception monad
      over the [World] (table, flashed messages, mail sent);
    - what lies outside the program (the random draw, the SMTP session, the
      URL validator of the form library, the configuration object) enters as
      an explicit argument. *)

From Stdlib Require Import String Ascii List ZArith NArith Bool Lia.
From Stdlib Require Import Decimal DecimalString.
Import ListNotations.

Open Scope string_scope.

(** ** Python values *)

Inductive PyVal : Type :=
| VNone
| VBool (b : bool)
| VInt (z : Z)
| VStr (s : string).

(** A [dict] with string keys, in insertion order. *)
Definition Dict : Type := list (string * PyVal).

(** Exceptions the program meets.  All of them are instances of Python's
    [Exception]; [NotFound] is the HTTP exception of [get_or_404]. *)
Inductive Constraint : Type :=
| NotNull (column : string)
| Unique (column : string).

Inductive PyExc : Type :=
| NotFound
| IndexError (msg : string)
| IntegrityError (violated : Constraint)
| PendingRollbackError (original : PyExc)
| SMTPException (detail : string)
| OSError (detail : string).

(** [str(n)] for an integer. *)
Definition str_of_int (z : Z) : string :=
  NilZero.string_of_int (Z.to_int z).

(** [str(b)] for a boolean. *)
Definition str_of_bool (b : bool) : string :=
  if b then "True" else "False".

(** What an f-string writes for a value that may be [None]. *)
Definition fmt (v : option string) : string :=
  match v with
  | Some s => s
  | None => "None"
  end.

(** [s.startswith(p)] *)
Definition startswith (s p : string) : bool := String.prefix p s.

(** The currency glyph, as written in the source. *)
Definition glyph : string := "£".

(** [s.strip() == ""]: every code point of [s] is white space for
    [str.isspace].  The code points are read off their UTF-8 encodings:
    U+0009..000D, U+001C..0020, U+0085, U+00A0, U+1680, U+2000..200A,
    U+2028, U+2029, U+202F, U+205F and U+3000. *)
Definition byte (a : ascii) : N := N_of_ascii a.

Definition space1 (x : N) : bool :=
  ((9 <=? x) && (x <=? 13) || (28 <=? x) && (x <=? 32))%N.

Definition space2 (x y : N) : bool :=
  ((x =? 194) && ((y =? 133) || (y =? 160)))%N.

Definition space3 (x y z : N) : bool :=
  ((x =? 225) && (y =? 154) && (z =? 128)
   || (x =? 226) && (y =? 128)
      && ((128 <=? z) && (z <=? 138) || (z =? 168) || (z =? 169) || (z =? 175))
   || (x =? 226) && (y =? 129) && (z =? 159)
   || (x =? 227) && (y =? 128) && (z =? 128))%N.

Fixpoint is_blank (s : string) : bool :=
  match s with
  | EmptyString => true
  | String a s1 =>
      if space1 (byte a) then is_blank s1
      else
        match s1 with
        | EmptyString => false
        | String b s2 =>
            if space2 (byte a) (byte b) then is_blank s2
            else
              match s2 with
              | EmptyString => false
              | String c s3 =>
                  if space3 (byte a) (byte b) (byte c) then is_blank s3
                  else false
              end
        end
  end.

(** ** The table ([class Cafe]) *)

(** An instance of the mapped class.  Every attribute of a Python object can
    be [None]: a new object has no [id] until it is flushed, and the schema's
    NOT NULL constraints are checked by the database, at flush. *)
Record Cafe : Type := mkCafe {
  id : option Z;
  name : option string;
  map_url : option string;
  img_url : option string;
  location : option string;
  seats : option string;
  has_toilet : bool;
  has_wifi : bool;
  has_sockets : bool;
  can_take_calls : bool;
  coffee_price : option string
}.

Definition opt_str (v : option string) : PyVal :=
  match v with
  | Some s => VStr s
  | None => VNone
  end.

Definition opt_int (v : option Z) : PyVal :=
  match v with
  | Some z => VInt z
  | None => VNone
  end.

(** [Cafe.to_dict]: one entry per column of the table, in column order. *)
Definition to_dict (c : Cafe) : Dict :=
  [ ("id", opt_int (id c));
    ("name", opt_str (name c));
    ("map_url", opt_str (map_url c));
    ("img_url", opt_str (img_url c));
    ("location", opt_str (location c));
    ("seats", opt_str (seats c));
    ("has_toilet", VBool (has_toilet c));
    ("has_wifi", VBool (has_wifi c));
    ("has_sockets", VBool (has_sockets c));
    ("can_take_calls", VBool (can_take_calls c));
    ("coffee_price", opt_str (coffee_price c)) ].

(** [Cafe.__repr__] *)
Definition repr (c : Cafe) : string :=
  "<" ++ fmt (option_map str_of_int (id c)) ++ ", " ++ fmt (name c) ++ ", "
      ++ fmt (location c) ++ ", " ++ fmt (map_url c) ++ ">".

(** ** Requests *)

Inductive Method : Type := GET | HEAD | OPTIONS | POST | PUT | PATCH | DELETE.

(** [request.args] and [request.form]: keys may repeat, [get] takes the
    first value. *)
Definition MultiDict : Type := list (string * string).

Fixpoint get (k : string) (d : MultiDict) : option string :=
  match d with
  | [] => None
  | (k', v) :: d' => if String.eqb k k' then Some v else get k d'
  end.

Record Request : Type := mkRequest {
  method : Method;
  args : MultiDict;
  form : MultiDict;
  csrf_ok : bool   (* the anti-forgery token of the request verifies *)
}.

(** ** Configuration ([config.conf], read through [app.config]) *)

Record Config : Type := mkConfig {
  API_KEY : option string;
  MAIL_SERVER : string;
  MAIL_PORT : Z;
  OWN_EMAIL : string;
  OWN_PW : string
}.

(** ** Responses *)

Record CafeFormData : Type := mkCafeFormData {
  f_name : option string;
  f_map_url : option string;
  f_img_url : option string;
  f_location : option string;
  f_seats : option string;
  f_has_toilet : option string;
  f_has_wifi : option string;
  f_has_sockets : option string;
  f_can_take_calls : option string;
  f_coffee_price : option string
}.

Record DeletCafeForm : Type := mkDeletCafeForm {
  d_api_key : option string
}.

Record ReportClosed : Type := mkReportClosed {
  r_sender : option string;
  r_message : option string
}.

Inductive TemplateCtx : Type :=
| CtxEmpty
| CtxAllCafes (all_cafes : list Dict)
| CtxForm (form_data : CafeFormData)
| CtxReport (del_form : DeletCafeForm) (report_form : ReportClosed).

Inductive Json : Type :=
| JCafe (cafe : Dict)
| JError (error : list (string * string)).

Inductive Response : Type :=
| Redirect (endpoint : string)
| Jsonify (body : Json)
| RenderTemplate (template : string) (ctx : TemplateCtx).

(** ** The world a request runs in *)

(** A flashed text: a literal, or a literal followed by [str(e)] of a caught
    exception. *)
Inductive Message : Type :=
| Text (s : string)
| TextExc (s : string) (e : PyExc).

Record Flash : Type := mkFlash {
  flash_message : Message;
  flash_category : string
}.

Record Email : Type := mkEmail {
  from_addr : string;
  to_addrs : string;
  msg : string
}.

(** What [db.session] holds between [add]/[delete] and [commit]. *)
Inductive Pending : Type :=
| Insert (c : Cafe)
| Update (c : Cafe)
| Delete (c : Cafe).

Record World : Type := mkWorld {
  cafes : list Cafe;       (* the rows of the table, committed *)
  pending : list Pending;  (* the session's unflushed changes, oldest first *)
  flashed : list Flash;    (* transient notices, oldest first *)
  outbox : list Email      (* mail accepted by the relay, oldest first *)
}.

Definition set_cafes (rows : list Cafe) (w : World) : World :=
  {| cafes := rows; pending := pending w;
     flashed := flashed w; outbox := outbox w |}.

Definition set_pending (ps : list Pending) (w : World) : World :=
  {| cafes := cafes w; pending := ps;
     flashed := flashed w; outbox := outbox w |}.

Definition set_flashed (fs : list Flash) (w : World) : World :=
  {| cafes := cafes w; pending := pending w;
     flashed := fs; outbox := outbox w |}.

Definition set_outbox (ms : list Email) (w : World) : World :=
  {| cafes := cafes w; pending := pending w;
     flashed := flashed w; outbox := ms |}.

(** ** The monad of view functions *)

Inductive Res (A : Type) : Type :=
| Val (a : A)
| Raise (e : PyExc).

Arguments Val {A} a.
Arguments Raise {A} e.

Definition M (A : Type) : Type := World -> Res A * World.

Definition ret {A} (a : A) : M A := fun w => (Val a, w).

Definition raise {A} (e : PyExc) : M A := fun w => (Raise e, w).

Definition bind {A B} (m : M A) (k : A -> M B) : M B :=
  fun w =>
    match m w with
    | (Val a, w') => k a w'
    | (Raise e, w') => (Raise e, w')
    end.

(** [try: m except Exception as e: h e] *)
Definition try_except {A} (m : M A) (h : PyExc -> M A) : M A :=
  fun w =>
    match m w with
    | (Val a, w') => (Val a, w')
    | (Raise e, w') => h e w'
    end.

Declare Scope view_scope.
Delimit Scope view_scope with view.

Notation "x <- m ;; k" := (bind m (fun x => k))
  (at level 100, m at next level, right associativity) : view_scope.
Notation "m ;;; k" := (bind m (fun _ => k))
  (at level 100, right associativity) : view_scope.

Open Scope view_scope.

(** The HTTP status the framework answers with. *)
Definition status {A} (r : Res A) (of_val : A -> Z) : Z :=
  match r with
  | Val a => of_val a
  | Raise NotFound => 404
  | Raise _ => 500
  end.

Definition response_status (r : Response) : Z :=
  match r with
  | Redirect _ => 302
  | _ => 200
  end.

(** [flash(message, category)] *)
Definition flash (m : Message) (category : string) : M unit :=
  fun w => (Val tt, set_flashed (flashed w ++ [mkFlash m category]) w).

(** ** Persistence layer *)

(** The SQL comparison [id = i]: never true of NULL. *)
Definition same_id (i : option Z) (c : Cafe) : bool :=
  match i, id c with
  | Some a, Some b => (a =? b)%Z
  | _, _ => false
  end.

(** [Cafe.location == q]: equality for a string, [IS NULL] for [None]. *)
Definition location_is (q : option string) (c : Cafe) : bool :=
  match q, location c with
  | Some a, Some b => String.eqb a b
  | None, None => true
  | _, _ => false
  end.

Definition same_name (n : option string) (c : Cafe) : bool :=
  match n, name c with
  | Some a, Some b => String.eqb a b
  | _, _ => false
  end.

Definition row_ids (rows : list Cafe) : list Z :=
  flat_map (fun c => match id c with Some i => [i] | None => [] end) rows.

(** The key an INTEGER PRIMARY KEY column gets on insert: one more than the
    largest key in the table. *)
Definition fresh_id (rows : list Cafe) : Z :=
  (1 + fold_right Z.max 0 (row_ids rows))%Z.

Definition with_id (i : option Z) (c : Cafe) : Cafe :=
  {| id := i; name := name c; map_url := map_url c; img_url := img_url c;
     location := location c; seats := seats c; has_toilet := has_toilet c;
     has_wifi := has_wifi c; has_sockets := has_sockets c;
     can_take_calls := can_take_calls c; coffee_price := coffee_price c |}.

Definition is_null (v : option string) : bool :=
  match v with
  | Some _ => false
  | None => true
  end.

(** [nullable=False] on five string columns, [unique=True] on [name].  The
    Boolean columns are never [None] in this program. *)
Definition check_row (c : Cafe) (others : list Cafe) : option Constraint :=
  if is_null (name c) then Some (NotNull "name")
  else if is_null (map_url c) then Some (NotNull "map_url")
  else if is_null (img_url c) then Some (NotNull "img_url")
  else if is_null (location c) then Some (NotNull "location")
  else if is_null (seats c) then Some (NotNull "seats")
  else if existsb (same_name (name c)) others then Some (Unique "name")
  else None.

Definition other_rows (i : option Z) (rows : list Cafe) : list Cafe :=
  filter (fun r => negb (same_id i r)) rows.

(** One statement of a flush. *)
Definition flush1 (p : Pending) (rows : list Cafe) : PyExc + list Cafe :=
  match p with
  | Insert c =>
      let c' := with_id (Some (fresh_id rows)) c in
      match check_row c' rows with
      | Some k => inl (IntegrityError k)
      | None => inr (rows ++ [c'])%list
      end
  | Update c =>
      match check_row c (other_rows (id c) rows) with
      | Some k => inl (IntegrityError k)
      | None => inr (map (fun r => if same_id (id c) r then c else r) rows)
      end
  | Delete c => inr (other_rows (id c) rows)
  end.

Fixpoint flush (ps : list Pending) (rows : list Cafe) : PyExc + list Cafe :=
  match ps with
  | [] => inr rows
  | p :: ps' =>
      match flush1 p rows with
      | inl e => inl e
      | inr rows' => flush ps' rows'
      end
  end.

(** [db.session.query(Cafe).all()] *)
Definition query_all : M (list Cafe) := fun w => (Val (cafes w), w).

(** [db.session.query(Cafe).filter(Cafe.location == q).first()] *)
Definition query_location_first (q : option string) : M (option Cafe) :=
  fun w => (Val (find (location_is q) (cafes w)), w).

(** [Cafe.query.get_or_404(cafe_id)] *)
Definition get_or_404 (cafe_id : Z) : M Cafe :=
  fun w =>
    match find (same_id (Some cafe_id)) (cafes w) with
    | Some c => (Val c, w)
    | None => (Raise NotFound, w)
    end.

(** [db.session.add(obj)]: an object without identity is to be inserted, a
    loaded one is to be updated. *)
Definition session_add (c : Cafe) : M unit :=
  fun w =>
    (Val tt,
     set_pending
       (pending w ++ [match id c with None => Insert c | Some _ => Update c end])
       w).

(** [db.session.delete(obj)] *)
Definition session_delete (c : Cafe) : M unit :=
  fun w => (Val tt, set_pending (pending w ++ [Delete c]) w).

(** [db.session.commit()]: all of the pending changes or none of them. *)
Definition commit : M unit :=
  fun w =>
    match flush (pending w) (cafes w) with
    | inr rows => (Val tt, set_pending [] (set_cafes rows w))
    | inl e => (Raise e, w)
    end.

(** [db.session.rollback()] *)
Definition rollback : M unit :=
  fun w => (Val tt, set_pending [] w).

(** ** Form/validation layer *)

(** [FlaskForm.is_submitted] *)
Definition is_submitted (req : Request) : bool :=
  match method req with
  | POST | PUT | PATCH | DELETE => true
  | _ => false
  end.

(** The form data a [FlaskForm] is built from: [request.form] for a
    submitted request, nothing otherwise. *)
Definition formdata (req : Request) : option MultiDict :=
  if is_submitted req then Some (form req) else None.

(** [Field.process]: the submitted value when the field is in the form
    data, the value the field was given otherwise. *)
Definition process (fd : option MultiDict) (field : string)
    (data : option string) : option string :=
  match fd with
  | Some d =>
      match get field d with
      | Some v => Some v
      | None => data
      end
  | None => data
  end.

(** [DataRequired()] *)
Definition DataRequired (data : option string) : bool :=
  match data with
  | Some s => negb (is_blank s)
  | None => false
  end.

Definition choices : list string := ["YES"; "NO"].

(** [SelectField.pre_validate] *)
Definition valid_choice (data : option string) : bool :=
  match data with
  | Some s => existsb (String.eqb s) choices
  | None => false
  end.

(** [x == 'YES'] for a value that may be [None]. *)
Definition is_yes (v : option string) : bool :=
  match v with
  | Some s => String.eqb s "YES"
  | None => false
  end.

(** [UpdateCafeForm.validate_coffee_price]: the text of the
    [ValidationError] raised, if one is. *)
Definition validate_coffee_price (data : string) : option string :=
  if negb (startswith data glyph)
  then Some "Price must starts with '£'."
  else None.

Definition string_field (data : option string) : bool := DataRequired data.

Definition select_field (data : option string) : bool :=
  valid_choice data && DataRequired data.

(** The inline validator runs after [DataRequired], which stops the chain
    when it fails. *)
Definition price_field (data : option string) : bool :=
  DataRequired data &&
  match data with
  | Some s =>
      match validate_coffee_price s with
      | None => true
      | Some _ => false
      end
  | None => false
  end.

Definition AddCafeForm (req : Request) : CafeFormData :=
  let fd := formdata req in
  {| f_name := process fd "name" None;
     f_map_url := process fd "map_url" None;
     f_img_url := process fd "img_url" None;
     f_location := process fd "location" None;
     f_seats := process fd "seats" None;
     f_has_toilet := process fd "has_toilet" None;
     f_has_wifi := process fd "has_wifi" None;
     f_has_sockets := process fd "has_sockets" None;
     f_can_take_calls := process fd "can_take_calls" None;
     f_coffee_price := process fd "coffee_price" None |}.

(** [UpdateCafeForm(obj=cafe)]: form data first, the object's attributes
    for what the form data lacks; a select field coerces with [str]. *)
Definition UpdateCafeForm (req : Request) (obj : Cafe) : CafeFormData :=
  let fd := formdata req in
  let sel b := Some (str_of_bool b) in
  {| f_name := process fd "name" (name obj);
     f_map_url := process fd "map_url" (map_url obj);
     f_img_url := process fd "img_url" (img_url obj);
     f_location := process fd "location" (location obj);
     f_seats := process fd "seats" (seats obj);
     f_has_toilet := process fd "has_toilet" (sel (has_toilet obj));
     f_has_wifi := process fd "has_wifi" (sel (has_wifi obj));
     f_has_sockets := process fd "has_sockets" (sel (has_sockets obj));
     f_can_take_calls := process fd "can_take_calls" (sel (can_take_calls obj));
     f_coffee_price := process fd "coffee_price" (coffee_price obj) |}.

Definition mkDeletForm (req : Request) : DeletCafeForm :=
  {| d_api_key := process (formdata req) "api_key" None |}.

Definition mkReportForm (req : Request) : ReportClosed :=
  {| r_sender := process (formdata req) "sender" None;
     r_message := process (formdata req) "message" None |}.

Definition validate_report (req : Request) (f : ReportClosed) : bool :=
  csrf_ok req && string_field (r_sender f) && string_field (r_message f).

Section Views.

(** The [URL()] validator of the form library, on the text of a field. *)
Variable URL : string -> bool.

Definition url_field (data : option string) : bool :=
  DataRequired data &&
  match data with
  | Some s => URL s
  | None => false
  end.

Definition validate_add (req : Request) (f : CafeFormData) : bool :=
  csrf_ok req
  && string_field (f_name f)
  && url_field (f_map_url f)
  && url_field (f_img_url f)
  && string_field (f_location f)
  && string_field (f_seats f)
  && select_field (f_has_toilet f)
  && select_field (f_has_wifi f)
  && select_field (f_has_sockets f)
  && select_field (f_can_take_calls f)
  && string_field (f_coffee_price f).

Definition validate_update (req : Request) (f : CafeFormData) : bool :=
  csrf_ok req
  && string_field (f_name f)
  && url_field (f_map_url f)
  && url_field (f_img_url f)
  && string_field (f_location f)
  && string_field (f_seats f)
  && select_field (f_has_toilet f)
  && select_field (f_has_wifi f)
  && select_field (f_has_sockets f)
  && select_field (f_can_take_calls f)
  && price_field (f_coffee_price f).

(** ** Notification dispatcher *)

(** The SMTP session is outside the program: [Relay] says at which step of
    it an exception is raised, if at one. *)
Inductive SmtpStage : Type :=
| Connect | Ehlo | StartTls | Login | Sendmail | Quit.

Definition stage_eqb (a b : SmtpStage) : bool :=
  match a, b with
  | Connect, Connect | Ehlo, Ehlo | StartTls, StartTls
  | Login, Login | Sendmail, Sendmail | Quit, Quit => true
  | _, _ => false
  end.

Definition Relay : Type := option (SmtpStage * PyExc).

Definition smtp_step (relay : Relay) (stage : SmtpStage) : M unit :=
  match relay with
  | Some (s, e) => if stage_eqb s stage then raise e else ret tt
  | None => ret tt
  end.

(** [server.sendmail(...)]: the relay takes the message unless the call
    raises. *)
Definition smtp_sendmail (relay : Relay) (m : Email) : M unit :=
  smtp_step relay Sendmail ;;;
  fun w => (Val tt, set_outbox (outbox w ++ [m]) w).

Definition nl : string := String "010"%char EmptyString.

(** [send_email] *)
Definition send_email (conf : Config) (relay : Relay)
    (sender : option string) (message : string) : M unit :=
  let email := OWN_EMAIL conf in
  let email_message :=
    "Subject: [Free-wifi-Cafes] A New Report Message!" ++ nl ++ nl
    ++ "Name: " ++ fmt sender ++ nl ++ "-----" ++ nl
    ++ "Message:" ++ message in
  try_except
    (smtp_step relay Connect ;;;
     smtp_step relay Ehlo ;;;
     smtp_step relay StartTls ;;;
     smtp_step relay Login ;;;
     smtp_sendmail relay (mkEmail email email email_message) ;;;
     smtp_step relay Quit ;;;
     flash (Text "Email sent successfully") "success")
    (fun e => flash (TextExc "Failed to send email: " e) "danger").

(** ** Route handlers *)

(** [home] *)
Definition home : M Response :=
  ret (RenderTemplate "index.html" CtxEmpty).

(** [random.choice(seq)], with the generator's [_randbelow] as argument. *)
Definition random_choice {A} (randbelow : nat -> nat) (seq : list A) : M A :=
  match seq with
  | [] => raise (IndexError "Cannot choose from an empty sequence")
  | _ :: _ =>
      match nth_error seq (randbelow (length seq)) with
      | Some x => ret x
      | None => raise (IndexError "list index out of range")
      end
  end.

(** [get_random_cafe] *)
Definition get_random_cafe (randbelow : nat -> nat) : M Response :=
  all_rows <- query_all ;;
  random_cafe <- random_choice randbelow all_rows ;;
  ret (Jsonify (JCafe (to_dict random_cafe))).

(** [get_all_cafes] *)
Definition get_all_cafes : M Response :=
  all_cafes <- query_all ;;
  ret (RenderTemplate "cafes.html" (CtxAllCafes (map to_dict all_cafes))).

Definition not_found_payload : Json :=
  JError [("Not Found", "Sorry, we don't have a cafe at this location.")].

(** [get_cafe_at_location] *)
Definition get_cafe_at_location (req : Request) : M Response :=
  let query_location := get "loc" (args req) in
  cafe <- query_location_first query_location ;;
  match cafe with
  | Some c => ret (Jsonify (JCafe (to_dict c)))
  | None => ret (Jsonify not_found_payload)
  end.

(** The object [add_cafe] builds from [request.form]. *)
Definition new_cafe (req : Request) : Cafe :=
  {| id := None;
     name := get "name" (form req);
     map_url := get "map_url" (form req);
     img_url := get "img_url" (form req);
     location := get "location" (form req);
     seats := get "seats" (form req);
     has_toilet := is_yes (get "has_toilet" (form req));
     has_wifi := is_yes (get "has_wifi" (form req));
     has_sockets := is_yes (get "has_sockets" (form req));
     can_take_calls := is_yes (get "can_take_calls" (form req));
     coffee_price := Some (glyph ++ fmt (get "coffee_price" (form req))) |}.

(** [add_cafe] *)
Definition add_cafe (req : Request) : M Response :=
  let form_ := AddCafeForm req in
  if is_submitted req && validate_add req form_ then
    session_add (new_cafe req) ;;;
    commit ;;;
    ret (Redirect "get_all_cafes")
  else ret (RenderTemplate "add.html" (CtxForm form_)).

(** The assignments [update_cafe] makes to the loaded object. *)
Definition assign (cafe : Cafe) (f : CafeFormData) : Cafe :=
  {| id := id cafe;
     name := f_name f;
     map_url := f_map_url f;
     img_url := f_img_url f;
     location := f_location f;
     seats := f_seats f;
     has_toilet := is_yes (f_has_toilet f);
     has_wifi := is_yes (f_has_wifi f);
     has_sockets := is_yes (f_has_sockets f);
     can_take_calls := is_yes (f_can_take_calls f);
     coffee_price := f_coffee_price f |}.

(** [cafe.name] read in the [except] branch of [update_cafe], before
    [db.session.rollback()].  The flush that failed inside [commit] has
    expired the attributes of the objects of the session, and until
    [rollback()] the session refuses the statement that would load them
    again: the read raises [PendingRollbackError], which names the exception
    of the flush. *)
Definition name_after_failed_flush (cafe : Cafe) (e : PyExc)
    : M (option string) :=
  raise (PendingRollbackError e).

(** [update_cafe].  The [try] either returns the redirect or, after the
    handler of the exception, falls through to the final [return].  The
    handler builds its notice from [cafe.name] first; what follows that read
    is written as the source has it. *)
Definition update_cafe (req : Request) (cafe_id : Z) : M Response :=
  loaded <- get_or_404 cafe_id ;;
  let form_ := UpdateCafeForm req loaded in
  returned <-
    (if is_submitted req && validate_update req form_ then
       let cafe := assign loaded form_ in
       try_except
         (session_add cafe ;;;
          commit ;;;
          flash (Text (fmt (name cafe)
                       ++ "'s information updated successfully!!!"))
                "success" ;;;
          ret (Some (Redirect "get_all_cafes")))
         (fun e =>
            stale <- name_after_failed_flush cafe e ;;
            flash (TextExc ("Failed to update " ++ fmt stale
                            ++ "'s information: ") e)
                  "danger" ;;;
            rollback ;;;
            ret None)
     else ret None) ;;
  match returned with
  | Some r => ret r
  | None => ret (RenderTemplate "edit.html" (CtxForm form_))
  end.

(** [a == b] for two values that are a [str] or [None]. *)
Definition opt_eqb (a b : option string) : bool :=
  match a, b with
  | Some x, Some y => String.eqb x y
  | None, None => true
  | _, _ => false
  end.

(** The closure-report branch of [delete_cafe]. *)
Definition report_branch (conf : Config) (relay : Relay) (req : Request)
    (cafe_id : Z) : M Response :=
  let del_form := mkDeletForm req in
  let report_form := mkReportForm req in
  if is_submitted req && validate_report req report_form then
    cafe <- get_or_404 cafe_id ;;
    let sender := get "sender" (form req) in
    let message_from_usr :=
      fmt (get "message" (form req)) ++ nl ++ "-----" ++ nl
      ++ "Cafe's Info: " ++ repr cafe in
    send_email conf relay sender message_from_usr ;;;
    flash (Text ("Closed report of " ++ fmt (name cafe)
                 ++ " has been sent to site admin seccessfully!!"))
          "success" ;;;
    ret (Redirect "get_all_cafes")
  else ret (RenderTemplate "report.html" (CtxReport del_form report_form)).

(** [delete_cafe] *)
Definition delete_cafe (conf : Config) (relay : Relay) (req : Request)
    (cafe_id : Z) : M Response :=
  let api_key := get "api_key" (form req) in
  if opt_eqb api_key (API_KEY conf) then
    cafe <- get_or_404 cafe_id ;;
    session_delete cafe ;;;
    commit ;;;
    flash (Text (fmt (name cafe) ++ " has been deleted!!")) "success" ;;;
    ret (Redirect "get_all_cafes")
  else report_branch conf relay req cafe_id.

End Views.

(** ** Vocabulary of the statements *)

(** [id] is the primary key: no two rows of the table share it. *)
Definition keyed (rows : list Cafe) : Prop := NoDup (map id rows).

(** A request starts with nothing pending in the session. *)
Definition fresh_session (w : World) : Prop := pending w = [].

(** An amenity selection and the Boolean stored for it. *)
Definition amenity_mapped (submitted : option string) (stored : bool) : Prop :=
  (submitted = Some "YES" /\ stored = true) \/
  (submitted = Some "NO" /\ stored = false).

(** The columns of the table, in order. *)
Definition columns : list string :=
  ["id"; "name"; "map_url"; "img_url"; "location"; "seats"; "has_toilet";
   "has_wifi"; "has_sockets"; "can_take_calls"; "coffee_price"].

(** The notice [send_email] flashes for an SMTP session. *)
Definition dispatch_notice (relay : Relay) : Flash :=
  match relay with
  | None => mkFlash (Text "Email sent successfully") "success"
  | Some (_, e) => mkFlash (TextExc "Failed to send email: " e) "danger"
  end.

(** The relay has taken the message: the session went through, or broke
    only when closing. *)
Definition delivered (relay : Relay) : bool :=
  match relay with
  | None | Some (Quit, _) => true
  | Some _ => false
  end.

(** [validate_on_submit()] of the three forms the handlers validate. *)
Definition add_validates (URL : string -> bool) (req : Request) : bool :=
  is_submitted req && validate_add URL req (AddCafeForm req).

Definition update_validates (URL : string -> bool) (req : Request)
    (loaded : Cafe) : bool :=
  is_submitted req && validate_update URL req (UpdateCafeForm req loaded).

Definition report_validates (req : Request) : bool :=
  is_submitted req && validate_report req (mkReportForm req).

(** The form [UpdateCafeForm(obj=cafe)] is when nothing was submitted:
    every field from the object. *)
Definition hydrated (obj : Cafe) : CafeFormData :=
  UpdateCafeForm {| method := GET; args := []; form := []; csrf_ok := true |}
                 obj.

(** Every field the request submits shows in the form with the submitted
    value. *)
Definition shows_submission (req : Request) (f : CafeFormData) : Prop :=
  (forall v, get "name" (form req) = Some v -> f_name f = Some v) /\
  (forall v, get "map_url" (form req) = Some v -> f_map_url f = Some v) /\
  (forall v, get "img_url" (form req) = Some v -> f_img_url f = Some v) /\
  (forall v, get "location" (form req) = Some v -> f_location f = Some v) /\
  (forall v, get "seats" (form req) = Some v -> f_seats f = Some v) /\
  (forall v, get "has_toilet" (form req) = Some v ->
             f_has_toilet f = Some v) /\
  (forall v, get "has_wifi" (form req) = Some v -> f_has_wifi f = Some v) /\
  (forall v, get "has_sockets" (form req) = Some v ->
             f_has_sockets f = Some v) /\
  (forall v, get "can_take_calls" (form req) = Some v ->
             f_can_take_calls f = Some v) /\
  (forall v, get "coffee_price" (form req) = Some v ->
             f_coffee_price f = Some v).

(** ** Sample data *)

Module Sample.

Definition url (s : string) : bool := startswith s "http".

Definition conf : Config :=
  {| API_KEY := Some "TopSecretAPIKey"; MAIL_SERVER := "smtp.example.org";
     MAIL_PORT := 587; OWN_EMAIL := "admin@example.org"; OWN_PW := "pw" |}.

Definition cafe_form (n loc price : string) : MultiDict :=
  [("name", n); ("map_url", "https://maps.example.org/brew");
   ("img_url", "https://img.example.org/brew.jpg"); ("location", loc);
   ("seats", "20-30"); ("has_toilet", "YES"); ("has_wifi", "NO");
   ("has_sockets", "YES"); ("can_take_calls", "NO");
   ("coffee_price", price)].

Definition post (fields : MultiDict) : Request :=
  {| method := POST; args := []; form := fields; csrf_ok := true |}.


Definition row (i : Z) (n loc price : string) : Cafe :=
  {| id := Some i; name := Some n;
     map_url := Some "https://maps.example.org/brew";
     img_url := Some "https://img.example.org/brew.jpg";
     location := Some loc; seats := Some "20-30";
     has_toilet := true; has_wifi := false; has_sockets := true;
     can_take_calls := false; coffee_price := Some price |}.

Definition brew : Cafe := row 1 "Brew & Bytes" "Peckham" "£3.50".
Definition bean : Cafe := row 2 "Bean There" "Peckham" "£2.80".

Definition table (rows : list Cafe) : World :=
  {| cafes := rows; pending := []; flashed := []; outbox := [] |}.

Definition report : MultiDict :=
  [("sender", "visitor@example.org"); ("message", "Closed for good.")].

End Sample.

(** ** Vocabulary of the schema and of a stored submission *)

(** A stored row has its key and a value in each column declared
    [nullable=False]. *)
Definition complete (c : Cafe) : Prop :=
  id c <> None /\ name c <> None /\ map_url c <> None /\
  img_url c <> None /\ location c <> None /\ seats c <> None.

(** The constraints the schema puts on the table: primary key, [unique]
    name, NOT NULL columns. *)
Definition schema_ok (rows : list Cafe) : Prop :=
  keyed rows /\ NoDup (map name rows) /\ Forall complete rows.

(** The row holds what the request submitted: every submitted text as it
    is, every amenity as the Boolean of its selection. *)
Definition holds_submission (req : Request) (c : Cafe) : Prop :=
  (forall v, get "name" (form req) = Some v -> name c = Some v) /\
  (forall v, get "map_url" (form req) = Some v -> map_url c = Some v) /\
  (forall v, get "img_url" (form req) = Some v -> img_url c = Some v) /\
  (forall v, get "location" (form req) = Some v -> location c = Some v) /\
  (forall v, get "seats" (form req) = Some v -> seats c = Some v) /\
  amenity_mapped (get "has_toilet" (form req)) (has_toilet c) /\
  amenity_mapped (get "has_wifi" (form req)) (has_wifi c) /\
  amenity_mapped (get "has_sockets" (form req)) (has_sockets c) /\
  amenity_mapped (get "can_take_calls" (form req)) (can_take_calls c) /\
  (forall v, get "coffee_price" (form req) = Some v ->
             coffee_price c = Some v).

(** The text [send_email] composes for a sender and a message. *)
Definition mail_text (sender : option string) (message : string) : string :=
  "Subject: [Free-wifi-Cafes] A New Report Message!" ++ nl ++ nl
  ++ "Name: " ++ fmt sender ++ nl ++ "-----" ++ nl ++ "Message:" ++ message.

(** A request that is not a form submission. *)
Definition plain_get : Request :=
  {| method := GET; args := []; form := []; csrf_ok := false |}.

(** ** Vocabulary of the answers *)

(** [j] is the JSON value of a column holding [v]: the value itself, or
    null for NULL. *)
Definition text_value (v : option string) (j : PyVal) : Prop :=
  match v with
  | Some s => j = VStr s
  | None => j = VNone
  end.

Definition int_value (v : option Z) (j : PyVal) : Prop :=
  match v with
  | Some z => j = VInt z
  | None => j = VNone
  end.

(** [d] is the full field set of the row [c]: one entry for each column of
    the table, under the column's name and in the order of the schema, with
    the value the row has in that column. *)
Definition full_field_set (c : Cafe) (d : Dict) : Prop :=
  exists vid vname vmap vimg vloc vseats vprice,
    int_value (id c) vid /\
    text_value (name c) vname /\
    text_value (map_url c) vmap /\
    text_value (img_url c) vimg /\
    text_value (location c) vloc /\
    text_value (seats c) vseats /\
    text_value (coffee_price c) vprice /\
    d = [("id", vid); ("name", vname); ("map_url", vmap); ("img_url", vimg);
         ("location", vloc); ("seats", vseats);
         ("has_toilet", VBool (has_toilet c));
         ("has_wifi", VBool (has_wifi c));
         ("has_sockets", VBool (has_sockets c));
         ("can_take_calls", VBool (can_take_calls c));
         ("coffee_price", vprice)].

(** The requests the framework hands to the view of the report-closed
    route: the route lists GET, POST and DELETE, and the hook installed by
    [CSRFProtect(app)] turns away, before the view runs, a POST or DELETE
    whose anti-forgery token does not verify. *)
Definition reaches_report_view (req : Request) : Prop :=
  match method req with
  | GET => True
  | POST | DELETE => csrf_ok req = true
  | _ => False
  end.

(** * Properties *)

(** ** Tables with a primary key *)

Lemma opt_eqb_eq (a b : option string) : opt_eqb a b = true <-> a = b.
Proof.
  destruct a as [x|], b as [y|]; simpl; split; intro H;
    try discriminate; try reflexivity.
  - apply String.eqb_eq in H. now subst.
  - injection H as ->. apply String.eqb_refl.
Qed.

Lemma opt_eqb_neq (a b : option string) : opt_eqb a b = false <-> a <> b.
Proof.
  split; intro H.
  - intro E. apply opt_eqb_eq in E. congruence.
  - destruct (opt_eqb a b) eqn:E; [|reflexivity].
    apply opt_eqb_eq in E. contradiction.
Qed.

Lemma same_id_spec (i : Z) (c : Cafe) :
  same_id (Some i) c = true <-> id c = Some i.
Proof.
  unfold same_id. destruct (id c) as [j|]; split; intro H; try discriminate.
  - apply Z.eqb_eq in H. now subst.
  - injection H as ->. apply Z.eqb_refl.
Qed.

(** Removing the rows with a given key from a keyed table takes out the one
    row that has it and leaves the rows around it as they were. *)
Lemma other_rows_cons (i : option Z) (r : Cafe) (rows : list Cafe) :
  other_rows i (r :: rows) =
  (if same_id i r then other_rows i rows else r :: other_rows i rows).
Proof.
  unfold other_rows. cbn [filter]. now destruct (same_id i r).
Qed.

Lemma other_rows_absent (i : Z) (rows : list Cafe) :
  ~ In (Some i) (map id rows) -> other_rows (Some i) rows = rows.
Proof.
  induction rows as [|r rows IH]; intro Hn; [reflexivity|].
  rewrite other_rows_cons. cbn [map In] in Hn.
  destruct (same_id (Some i) r) eqn:E.
  - apply same_id_spec in E. exfalso. apply Hn. now left.
  - f_equal. apply IH. tauto.
Qed.

Lemma other_rows_split (i : Z) (rows : list Cafe) (target : Cafe) :
  keyed rows ->
  find (same_id (Some i)) rows = Some target ->
  exists before after,
    rows = (before ++ target :: after)%list /\
    other_rows (Some i) rows = (before ++ after)%list.
Proof.
  unfold keyed.
  induction rows as [|r rows IH]; intros K F; [discriminate|].
  cbn [map] in K. inversion K as [|? ? Hnot Hrest]; subst.
  cbn [find] in F. rewrite other_rows_cons.
  destruct (same_id (Some i) r) eqn:E.
  - injection F as ->. exists [], rows. split; [reflexivity|].
    apply same_id_spec in E. rewrite E in Hnot.
    now apply other_rows_absent.
  - destruct (IH Hrest F) as (before & after & -> & Hout).
    exists (r :: before), after. split; [reflexivity|].
    cbn [app]. now rewrite Hout.
Qed.

Lemma find_same_id_none (i : Z) (rows : list Cafe) :
  find (same_id (Some i)) rows = None -> other_rows (Some i) rows = rows.
Proof.
  induction rows as [|r rows IH]; intro F; [reflexivity|].
  cbn [find] in F. rewrite other_rows_cons.
  destruct (same_id (Some i) r) eqn:E; [discriminate|].
  f_equal. now apply IH.
Qed.

Lemma find_same_id (i : Z) (rows : list Cafe) (c : Cafe) :
  find (same_id (Some i)) rows = Some c -> In c rows /\ id c = Some i.
Proof.
  intro F. apply find_some in F. destruct F as [Hin E].
  split; [assumption | now apply same_id_spec].
Qed.

(** ** The admin-key branch of [delete_cafe] *)

Lemma delete_cafe_key (conf : Config) (relay : Relay) (req : Request)
    (cafe_id : Z) (w : World) :
  get "api_key" (form req) = API_KEY conf ->
  pending w = [] ->
  delete_cafe conf relay req cafe_id w =
    match find (same_id (Some cafe_id)) (cafes w) with
    | Some cafe =>
        (Val (Redirect "get_all_cafes"),
         {| cafes := other_rows (Some cafe_id) (cafes w);
            pending := [];
            flashed := flashed w ++
              [mkFlash (Text (fmt (name cafe) ++ " has been deleted!!"))
                       "success"];
            outbox := outbox w |})
    | None => (Raise NotFound, w)
    end.
Proof.
  intros K P. unfold delete_cafe.
  apply opt_eqb_eq in K. rewrite K.
  unfold bind at 1. unfold get_or_404.
  destruct (find (same_id (Some cafe_id)) (cafes w)) as [cafe|] eqn:F;
    [|reflexivity].
  apply find_same_id in F. destruct F as [_ Hid].
  cbv [bind session_delete commit flash ret set_pending set_cafes set_flashed
       pending cafes flashed outbox].
  destruct w as [rows ps fs ob]; simpl in *. subst ps. simpl.
  now rewrite Hid.
Qed.

Lemma delete_cafe_no_key (conf : Config) (relay : Relay) (req : Request)
    (cafe_id : Z) :
  get "api_key" (form req) <> API_KEY conf ->
  delete_cafe conf relay req cafe_id = report_branch conf relay req cafe_id.
Proof.
  intro K. unfold delete_cafe.
  apply opt_eqb_neq in K. now rewrite K.
Qed.

(** ** The closure-report branch *)

(** [send_email] always returns: whatever the SMTP session does, the caller
    gets control back, with one notice flashed. *)
Lemma send_email_returns (conf : Config) (relay : Relay)
    (sender : option string) (message : string) (w : World) :
  exists mail,
    from_addr mail = OWN_EMAIL conf /\ to_addrs mail = OWN_EMAIL conf /\
    send_email conf relay sender message w =
      (Val tt,
       {| cafes := cafes w;
          pending := pending w;
          flashed := flashed w ++ [dispatch_notice relay];
          outbox := if delivered relay then outbox w ++ [mail]
                    else outbox w |}).
Proof.
  eexists (mkEmail _ _ _). split; [reflexivity|]. split; [reflexivity|].
  destruct w as [rows ps fs ob].
  destruct relay as [[stage e]|]; [destruct stage|]; reflexivity.
Qed.

Lemma report_branch_runs (conf : Config) (relay : Relay) (req : Request)
    (cafe_id : Z) (w : World) :
  report_branch conf relay req cafe_id w =
    if report_validates req then
      match find (same_id (Some cafe_id)) (cafes w) with
      | Some cafe =>
          (Val (Redirect "get_all_cafes"),
           snd ((send_email conf relay (get "sender" (form req))
                   (fmt (get "message" (form req)) ++ nl ++ "-----" ++ nl
                    ++ "Cafe's Info: " ++ repr cafe) ;;;
                 flash (Text ("Closed report of " ++ fmt (name cafe)
                              ++ " has been sent to site admin seccessfully!!"))
                       "success") w))
      | None => (Raise NotFound, w)
      end
    else
      (Val (RenderTemplate "report.html"
              (CtxReport (mkDeletForm req) (mkReportForm req))), w).
Proof.
  unfold report_branch, report_validates.
  destruct (is_submitted req && validate_report req (mkReportForm req));
    [|reflexivity].
  unfold bind at 1, get_or_404.
  destruct (find (same_id (Some cafe_id)) (cafes w)) as [cafe|];
    [|reflexivity].
  set (message := fmt (get "message" (form req)) ++ _).
  destruct (send_email_returns conf relay (get "sender" (form req)) message w)
    as (mail & _ & _ & E).
  unfold bind. rewrite E. reflexivity.
Qed.

(** The report branch never touches the table or the session. *)
Lemma report_branch_frame (conf : Config) (relay : Relay) (req : Request)
    (cafe_id : Z) (w : World) :
  cafes (snd (report_branch conf relay req cafe_id w)) = cafes w /\
  pending (snd (report_branch conf relay req cafe_id w)) = pending w.
Proof.
  rewrite report_branch_runs.
  destruct (report_validates req); [|now split].
  destruct (find (same_id (Some cafe_id)) (cafes w)) as [cafe|]; [|now split].
  set (message := fmt (get "message" (form req)) ++ _).
  destruct (send_email_returns conf relay (get "sender" (form req)) message w)
    as (mail & _ & _ & E).
  unfold bind. rewrite E. now split.
Qed.

(** ** Delete with the shared key *)

(** C3.  On the report-closed endpoint a request whose submitted key equals
    the configured one deletes exactly the targeted row: the rows of the table
    after it are the rows before it that do not have the requested key, and
    when the target is there the table is the one before with that single row
    taken out, every other row where and what it was (when it is not there,
    the request ends in NotFound and the table is as it was).  A request whose
    key differs deletes nothing and is handled by the closure-report
    branch. *)
Theorem delete_cafe_removes_exactly_target
    (conf : Config) (relay : Relay) (req : Request) (cafe_id : Z) (w : World) :
  fresh_session w ->
  keyed (cafes w) ->
  (get "api_key" (form req) = API_KEY conf ->
   let w' := snd (delete_cafe conf relay req cafe_id w) in
   (forall r, In r (cafes w') <-> In r (cafes w) /\ id r <> Some cafe_id) /\
   (forall target,
      find (same_id (Some cafe_id)) (cafes w) = Some target ->
      fst (delete_cafe conf relay req cafe_id w)
        = Val (Redirect "get_all_cafes") /\
      exists before after,
        id target = Some cafe_id /\
        cafes w = (before ++ target :: after)%list /\
        cafes w' = (before ++ after)%list) /\
   (find (same_id (Some cafe_id)) (cafes w) = None ->
    delete_cafe conf relay req cafe_id w = (Raise NotFound, w))) /\
  (get "api_key" (form req) <> API_KEY conf ->
   delete_cafe conf relay req cafe_id w
     = report_branch conf relay req cafe_id w /\
   cafes (snd (delete_cafe conf relay req cafe_id w)) = cafes w).
Proof.
  intros P K. split.
  - intros Hkey w'. subst w'.
    rewrite (delete_cafe_key conf relay req cafe_id w Hkey P).
    assert (Hrows : forall r,
              In r (other_rows (Some cafe_id) (cafes w)) <->
              In r (cafes w) /\ id r <> Some cafe_id).
    { intro r. unfold other_rows. rewrite filter_In, negb_true_iff.
      rewrite <- same_id_spec. now destruct (same_id (Some cafe_id) r). }
    destruct (find (same_id (Some cafe_id)) (cafes w)) as [c|] eqn:F.
    + cbn [fst snd cafes]. split; [exact Hrows|]. split; [|discriminate].
      intros target E. injection E as ->. split; [reflexivity|].
      destruct (other_rows_split cafe_id (cafes w) target K F)
        as (before & after & Hsplit & Hout).
      exists before, after. split; [now apply find_same_id in F|].
      now split.
    + cbn [snd]. split.
      * intro r. rewrite <- Hrows.
        now rewrite (find_same_id_none cafe_id (cafes w) F).
      * split; [discriminate | reflexivity].
  - intro Hkey. rewrite (delete_cafe_no_key conf relay req cafe_id Hkey).
    split; [reflexivity | apply report_branch_frame].
Qed.

Lemma delete_cafe_removes_exactly_target_witness :
  let w := Sample.table [Sample.brew; Sample.bean] in
  let req := Sample.post [("api_key", "TopSecretAPIKey")] in
  fst (delete_cafe Sample.conf None req 2 w) = Val (Redirect "get_all_cafes") /\
  exists before after,
    id Sample.bean = Some 2%Z /\
    cafes w = (before ++ Sample.bean :: after)%list /\
    cafes (snd (delete_cafe Sample.conf None req 2 w))
      = (before ++ after)%list.
Proof.
  intros w req.
  refine (proj1 (proj2 (proj1 (delete_cafe_removes_exactly_target
                                 Sample.conf None req 2 w _ _) _))
            Sample.bean _).
  - reflexivity.
  - unfold keyed. simpl. repeat constructor; simpl; intuition discriminate.
  - reflexivity.
  - reflexivity.
Defined.

(** C10.  The admin-key branch comes first.  A request whose submitted key
    equals the configured one is answered from that branch alone: the row is
    deleted and the redirect returned (or the request ends in NotFound), and
    no mail goes out, also when the request carries a closure report that
    would validate and whatever the SMTP session would have done. *)
Theorem correct_key_sends_no_email
    (conf : Config) (relay : Relay) (req : Request) (cafe_id : Z) (w : World) :
  fresh_session w ->
  get "api_key" (form req) = API_KEY conf ->
  outbox (snd (delete_cafe conf relay req cafe_id w)) = outbox w /\
  (forall cafe,
     find (same_id (Some cafe_id)) (cafes w) = Some cafe ->
     fst (delete_cafe conf relay req cafe_id w)
       = Val (Redirect "get_all_cafes") /\
     cafes (snd (delete_cafe conf relay req cafe_id w))
       = other_rows (Some cafe_id) (cafes w) /\
     flashed (snd (delete_cafe conf relay req cafe_id w))
       = (flashed w ++
          [mkFlash (Text (fmt (name cafe) ++ " has been deleted!!"))
                   "success"])%list) /\
  (find (same_id (Some cafe_id)) (cafes w) = None ->
   delete_cafe conf relay req cafe_id w = (Raise NotFound, w)).
Proof.
  intros P Hkey.
  rewrite (delete_cafe_key conf relay req cafe_id w Hkey P).
  destruct (find (same_id (Some cafe_id)) (cafes w)) as [c|].
  - split; [reflexivity|]. split; [|discriminate].
    intros cafe E. injection E as ->. repeat split.
  - split; [reflexivity|]. split; [discriminate|reflexivity].
Qed.

Lemma correct_key_sends_no_email_witness :
  let w := Sample.table [Sample.brew; Sample.bean] in
  let req := Sample.post (("api_key", "TopSecretAPIKey") :: Sample.report) in
  report_validates req = true /\
  outbox (snd (delete_cafe Sample.conf None req 1 w)) = [] /\
  cafes (snd (delete_cafe Sample.conf None req 1 w)) = [Sample.bean].
Proof.
  intros w req.
  destruct (correct_key_sends_no_email Sample.conf None req 1 w)
    as (Hout & Hdel & _).
  - reflexivity.
  - reflexivity.
  - split; [reflexivity|]. split; [exact Hout|].
    destruct (Hdel Sample.brew) as (_ & Hrows & _); [reflexivity|].
    exact Hrows.
Defined.

(** C9, as the code has it.  A closure report that validates, on a request
    that does not carry the admin key: the target row is fetched, and the request ends in
    NotFound when there is none; otherwise the notification is dispatched and
    the answer is the redirect to the listing view whatever the SMTP session
    did.  A failure at any step of the session is caught: it shows only as a
    flashed notice of category danger, the table is untouched, and nothing
    is raised to the framework. *)
Theorem report_redirects_whatever_dispatch_does
    (conf : Config) (relay : Relay) (req : Request) (cafe_id : Z) (w : World) :
  get "api_key" (form req) <> API_KEY conf ->
  report_validates req = true ->
  (find (same_id (Some cafe_id)) (cafes w) = None ->
   delete_cafe conf relay req cafe_id w = (Raise NotFound, w)) /\
  (forall cafe,
     find (same_id (Some cafe_id)) (cafes w) = Some cafe ->
     exists w',
       delete_cafe conf relay req cafe_id w
         = (Val (Redirect "get_all_cafes"), w') /\
       cafes w' = cafes w /\
       flashed w' =
         (flashed w ++
          [dispatch_notice relay;
           mkFlash (Text ("Closed report of " ++ fmt (name cafe)
                          ++ " has been sent to site admin seccessfully!!"))
                   "success"])%list /\
       (delivered relay = false -> outbox w' = outbox w) /\
       (delivered relay = true ->
        exists mail,
          outbox w' = (outbox w ++ [mail])%list /\
          to_addrs mail = OWN_EMAIL conf)).
Proof.
  intros Hkey Hval.
  rewrite (delete_cafe_no_key conf relay req cafe_id Hkey).
  rewrite report_branch_runs, Hval.
  destruct (find (same_id (Some cafe_id)) (cafes w)) as [c|].
  - split; [discriminate|]. intros cafe E. injection E as ->.
    set (message := fmt (get "message" (form req)) ++ _).
    destruct (send_email_returns conf relay (get "sender" (form req)) message w)
      as (mail & _ & Hto & E).
    eexists. split; [reflexivity|].
    unfold bind. rewrite E. cbn [flash snd cafes flashed outbox set_flashed].
    split; [reflexivity|]. split; [now rewrite <- app_assoc|].
    split; intro D; rewrite D; [reflexivity|].
    exists mail. now split.
  - split; [reflexivity|discriminate].
Qed.

Lemma report_redirects_whatever_dispatch_does_witness :
  let w := Sample.table [Sample.brew] in
  let req := Sample.post (("api_key", "guess") :: Sample.report) in
  let relay := Some (Login, SMTPException "535 authentication failed") in
  exists w',
    delete_cafe Sample.conf relay req 1 w
      = (Val (Redirect "get_all_cafes"), w') /\
    cafes w' = [Sample.brew] /\
    flashed w' =
      [dispatch_notice relay;
       mkFlash (Text ("Closed report of Brew & Bytes"
                      ++ " has been sent to site admin seccessfully!!"))
               "success"] /\
    outbox w' = [].
Proof.
  intros w req relay.
  destruct (report_redirects_whatever_dispatch_does
              Sample.conf relay req 1 w) as (_ & Hsome).
  - discriminate.
  - reflexivity.
  - destruct (Hsome Sample.brew) as (w' & Hrun & Hrows & Hfl & Hno & _);
      [reflexivity|].
    exists w'. split; [exact Hrun|]. split; [exact Hrows|].
    split; [exact Hfl|]. apply Hno. reflexivity.
Defined.

(** The claim C9 for every validating closure report does not hold: a report
    that validates, sent together with the admin key, is not dispatched.  The
    row is deleted, the only notice is the one of the deletion, and no mail
    goes out although the SMTP session would have gone through. *)
Lemma report_with_admin_key_counterexample :
  let w := Sample.table [Sample.brew] in
  let req := Sample.post (("api_key", "TopSecretAPIKey") :: Sample.report) in
  report_validates req = true /\
  find (same_id (Some 1%Z)) (cafes w) = Some Sample.brew /\
  delete_cafe Sample.conf None req 1 w
    = (Val (Redirect "get_all_cafes"),
       {| cafes := [];
          pending := [];
          flashed := [mkFlash (Text "Brew & Bytes has been deleted!!")
                              "success"];
          outbox := [] |}) /\
  outbox (snd (report_branch Sample.conf None req 1 w)) <> [].
Proof.
  repeat split; try reflexivity. simpl. discriminate.
Qed.

(** ** Read endpoints *)


(** [find] returns the first element that passes the test. *)
Lemma find_first {A} (f : A -> bool) (l : list A) (x : A) :
  find f l = Some x ->
  exists before after,
    l = (before ++ x :: after)%list /\ f x = true /\
    forall y, In y before -> f y = false.
Proof.
  induction l as [|a l IH]; intro F; [discriminate|].
  cbn [find] in F. destruct (f a) eqn:E.
  - injection F as ->. exists [], l. repeat split; try assumption.
    intros y [].
  - destruct (IH F) as (before & after & -> & Hx & Hb).
    exists (a :: before), after. repeat split; try assumption.
    intros y [<-|Hy]; [assumption | now apply Hb].
Qed.

Lemma to_dict_columns (c : Cafe) : map fst (to_dict c) = columns.
Proof. reflexivity. Qed.

Lemma opt_str_inj (a b : option string) : opt_str a = opt_str b -> a = b.
Proof. destruct a, b; simpl; congruence. Qed.

Lemma opt_int_inj (a b : option Z) : opt_int a = opt_int b -> a = b.
Proof. destruct a, b; simpl; congruence. Qed.

(** The serialization loses nothing of a row. *)
Lemma to_dict_inj (c1 c2 : Cafe) : to_dict c1 = to_dict c2 -> c1 = c2.
Proof.
  destruct c1, c2. unfold to_dict. cbn [id name map_url img_url location seats
    has_toilet has_wifi has_sockets can_take_calls coffee_price].
  intro H. injection H as H1 H2 H3 H4 H5 H6 H7 H8 H9 H10 H11.
  apply opt_int_inj in H1.
  apply opt_str_inj in H2, H3, H4, H5, H6, H11.
  congruence.
Qed.

Lemma to_dict_full_field_set (c : Cafe) : full_field_set c (to_dict c).
Proof.
  unfold full_field_set, to_dict.
  exists (opt_int (id c)), (opt_str (name c)), (opt_str (map_url c)),
         (opt_str (img_url c)), (opt_str (location c)), (opt_str (seats c)),
         (opt_str (coffee_price c)).
  destruct (id c), (name c), (map_url c), (img_url c), (location c),
    (seats c), (coffee_price c); repeat split.
Qed.

Lemma text_value_inj (v1 v2 : option string) (j : PyVal) :
  text_value v1 j -> text_value v2 j -> v1 = v2.
Proof. destruct v1, v2; cbn [text_value]; congruence. Qed.

Lemma int_value_inj (v1 v2 : option Z) (j : PyVal) :
  int_value v1 j -> int_value v2 j -> v1 = v2.
Proof. destruct v1, v2; cbn [int_value]; congruence. Qed.

(** A field set is the field set of one row only. *)
Lemma full_field_set_inj (c1 c2 : Cafe) (d : Dict) :
  full_field_set c1 d -> full_field_set c2 d -> c1 = c2.
Proof.
  intros (a1 & a2 & a3 & a4 & a5 & a6 & a7
          & A1 & A2 & A3 & A4 & A5 & A6 & A7 & ->)
         (b1 & b2 & b3 & b4 & b5 & b6 & b7
          & B1 & B2 & B3 & B4 & B5 & B6 & B7 & E).
  injection E as <- <- <- <- <- <- Ht Hw Hs Hc <-.
  pose proof (int_value_inj _ _ _ A1 B1).
  pose proof (text_value_inj _ _ _ A2 B2).
  pose proof (text_value_inj _ _ _ A3 B3).
  pose proof (text_value_inj _ _ _ A4 B4).
  pose proof (text_value_inj _ _ _ A5 B5).
  pose proof (text_value_inj _ _ _ A6 B6).
  pose proof (text_value_inj _ _ _ A7 B7).
  destruct c1, c2. cbn in *. congruence.
Qed.



(** C7.  What the code does on an empty table: [random.choice] is called on
    the empty list and its [IndexError] leaves the view unhandled, so the
    request ends as an internal error of the framework.  No branch of the view
    tests for the empty table. *)
Theorem random_on_empty_table_is_unhandled
    (randbelow : nat -> nat) (ps : list Pending) (fs : list Flash)
    (ob : list Email) :
  let w := {| cafes := []; pending := ps; flashed := fs; outbox := ob |} in
  get_random_cafe randbelow w
    = (Raise (IndexError "Cannot choose from an empty sequence"), w) /\
  status (fst (get_random_cafe randbelow w)) response_status = 500%Z.
Proof. split; reflexivity. Qed.

Lemma get_random_cafe_draw (randbelow : nat -> nat) (w : World) (c : Cafe) :
  nth_error (cafes w) (randbelow (length (cafes w))) = Some c ->
  get_random_cafe randbelow w = (Val (Jsonify (JCafe (to_dict c))), w).
Proof.
  unfold get_random_cafe, bind, query_all, random_choice.
  destruct (cafes w) as [|r rows] eqn:E.
  - now destruct (randbelow (length (@nil Cafe))).
  - intro H. now rewrite H.
Qed.

Lemma get_random_cafe_drawn (randbelow : nat -> nat) (w : World) (c : Cafe) :
  get_random_cafe randbelow w = (Val (Jsonify (JCafe (to_dict c))), w) ->
  nth_error (cafes w) (randbelow (length (cafes w))) = Some c.
Proof.
  unfold get_random_cafe, bind, query_all, random_choice.
  destruct (cafes w) as [|r rows] eqn:E; [discriminate|].
  destruct (nth_error (r :: rows) (randbelow (length (r :: rows))))
    as [x|]; [|discriminate].
  unfold ret. intro H.
  assert (D : to_dict x = to_dict c) by congruence.
  now apply to_dict_inj in D as ->.
Qed.

(** C8.  On a table that is not empty the random endpoint answers with a
    row of the table: the full field set (every column under its name, with
    the row's value) of the row at the position the generator draws below the
    number of rows.  The choice is as uniform as the draw: each row of the
    table is the answer for exactly one of the draws 0, ..., n-1. *)
Theorem random_returns_a_row_of_the_table (w : World) :
  cafes w <> [] ->
  keyed (cafes w) ->
  (forall randbelow : nat -> nat,
     (forall n, 0 < n -> randbelow n < n) ->
     exists c d,
       In c (cafes w) /\
       nth_error (cafes w) (randbelow (length (cafes w))) = Some c /\
       full_field_set c d /\
       get_random_cafe randbelow w = (Val (Jsonify (JCafe d)), w)) /\
  (forall c, In c (cafes w) ->
     exists k d,
       k < length (cafes w) /\
       full_field_set c d /\
       get_random_cafe (fun _ => k) w = (Val (Jsonify (JCafe d)), w) /\
       forall k' d',
         k' < length (cafes w) ->
         full_field_set c d' ->
         get_random_cafe (fun _ => k') w = (Val (Jsonify (JCafe d')), w) ->
         k' = k).
Proof.
  intros Hne K. split.
  - intros randbelow Hr.
    assert (Hlt : randbelow (length (cafes w)) < length (cafes w)).
    { apply Hr. destruct (cafes w); [contradiction | simpl; lia]. }
    destruct (nth_error (cafes w) (randbelow (length (cafes w))))
      as [c|] eqn:E.
    + exists c, (to_dict c). split; [now apply nth_error_In in E|].
      split; [reflexivity|]. split; [apply to_dict_full_field_set|].
      now apply get_random_cafe_draw.
    + apply nth_error_None in E. lia.
  - intros c Hin. apply In_nth_error in Hin. destruct Hin as [k Hk].
    exists k, (to_dict c). split; [apply nth_error_Some; congruence|].
    split; [apply to_dict_full_field_set|].
    split; [now apply get_random_cafe_draw|].
    intros k' d' Hlt Hd' Hrun.
    assert (Hd : d' = to_dict c).
    { destruct (nth_error (cafes w) k') as [c'|] eqn:E;
        [|apply nth_error_None in E; lia].
      pose proof (get_random_cafe_draw (fun _ => k') w c' E) as Hrun'.
      rewrite Hrun in Hrun'.
      assert (Hx : d' = to_dict c') by congruence.
      subst d'.
      now rewrite (full_field_set_inj c c' _ Hd' (to_dict_full_field_set c')). }
    subst d'. apply get_random_cafe_drawn in Hrun.
    apply NoDup_map_inv in K.
    apply (proj1 (NoDup_nth_error (cafes w)) K); [assumption | congruence].
Qed.

Lemma random_returns_a_row_of_the_table_witness :
  let w := Sample.table [Sample.brew; Sample.bean] in
  (exists d,
     get_random_cafe Nat.pred w = (Val (Jsonify (JCafe d)), w) /\
     d = [("id", VInt 2); ("name", VStr "Bean There");
          ("map_url", VStr "https://maps.example.org/brew");
          ("img_url", VStr "https://img.example.org/brew.jpg");
          ("location", VStr "Peckham"); ("seats", VStr "20-30");
          ("has_toilet", VBool true); ("has_wifi", VBool false);
          ("has_sockets", VBool true); ("can_take_calls", VBool false);
          ("coffee_price", VStr "£2.80")]) /\
  (exists k d,
     k < 2 /\
     full_field_set Sample.brew d /\
     get_random_cafe (fun _ => k) w = (Val (Jsonify (JCafe d)), w)).
Proof.
  intro w.
  destruct (random_returns_a_row_of_the_table w) as (Hany & Heach).
  - discriminate.
  - unfold keyed. simpl. repeat constructor; simpl; intuition discriminate.
  - split.
    + destruct (Hany Nat.pred) as (c & d & _ & _ & _ & Hrun);
        [intros n Hn; lia|].
      exists d. split; [exact Hrun|].
      vm_compute in Hrun. now injection Hrun as <-.
    + destruct (Heach Sample.brew) as (k & d & Hk & Hd & Hrun & _);
        [simpl; auto|].
      exists k, d. now repeat split.
Defined.

(** ** Adding a cafe *)

Lemma process_submitted (d : MultiDict) (field : string) :
  process (Some d) field None = get field d.
Proof. unfold process. now destruct (get field d). Qed.

Lemma AddCafeForm_submitted (req : Request) :
  is_submitted req = true ->
  AddCafeForm req =
    {| f_name := get "name" (form req);
       f_map_url := get "map_url" (form req);
       f_img_url := get "img_url" (form req);
       f_location := get "location" (form req);
       f_seats := get "seats" (form req);
       f_has_toilet := get "has_toilet" (form req);
       f_has_wifi := get "has_wifi" (form req);
       f_has_sockets := get "has_sockets" (form req);
       f_can_take_calls := get "can_take_calls" (form req);
       f_coffee_price := get "coffee_price" (form req) |}.
Proof.
  intro S. unfold AddCafeForm, formdata. rewrite S.
  now rewrite !process_submitted.
Qed.

Lemma DataRequired_some (data : option string) :
  DataRequired data = true -> exists s, data = Some s /\ is_blank s = false.
Proof.
  destruct data as [s|]; simpl; [|discriminate].
  intro H. exists s. split; [reflexivity|]. now apply negb_true_iff.
Qed.

Lemma url_field_some (URL : string -> bool) (data : option string) :
  url_field URL data = true -> exists s, data = Some s /\ URL s = true.
Proof.
  unfold url_field. intro H. apply andb_prop in H. destruct H as [H U].
  apply DataRequired_some in H. destruct H as (s & -> & _). now exists s.
Qed.

Lemma select_field_mapped (data : option string) :
  select_field data = true -> amenity_mapped data (is_yes data).
Proof.
  unfold select_field, valid_choice, amenity_mapped, is_yes, choices.
  destruct data as [s|]; [|discriminate].
  intro H. apply andb_prop in H. destruct H as [H _]. cbn [existsb] in H.
  destruct (String.eqb s "YES") eqn:Y.
  - apply String.eqb_eq in Y. subst. now left.
  - destruct (String.eqb s "NO") eqn:N; [|discriminate].
    apply String.eqb_eq in N. subst. now right.
Qed.

(** The three ways [add_cafe] can go. *)
Lemma add_cafe_runs (URL : string -> bool) (req : Request) (w : World) :
  fresh_session w ->
  add_cafe URL req w =
    if add_validates URL req then
      let row := with_id (Some (fresh_id (cafes w))) (new_cafe req) in
      match check_row row (cafes w) with
      | Some k =>
          (Raise (IntegrityError k), set_pending [Insert (new_cafe req)] w)
      | None =>
          (Val (Redirect "get_all_cafes"),
           set_cafes (cafes w ++ [row]) w)
      end
    else (Val (RenderTemplate "add.html" (CtxForm (AddCafeForm req))), w).
Proof.
  intro P. unfold add_cafe, add_validates.
  destruct (is_submitted req && validate_add URL req (AddCafeForm req));
    [|reflexivity].
  destruct w as [rows ps fs ob]. unfold fresh_session in P. simpl in P.
  subst ps.
  cbv [bind session_add commit ret set_pending set_cafes pending cafes
       flashed outbox List.app flush flush1].
  cbn [id new_cafe].
  now destruct (check_row _ rows).
Qed.

Lemma existsb_same_name_false (n : option string) (rows : list Cafe) :
  (forall r, In r rows -> name r <> n) ->
  existsb (same_name n) rows = false.
Proof.
  intro H. destruct (existsb (same_name n) rows) eqn:E; [|reflexivity].
  apply existsb_exists in E. destruct E as (r & Hin & Hs).
  unfold same_name in Hs. destruct n as [a|]; [|discriminate].
  destruct (name r) as [b|] eqn:Hn; [|discriminate].
  apply String.eqb_eq in Hs. subst. now apply H in Hin.
Qed.

(** What validation of the add form gives about the submitted fields. *)
Lemma add_validates_fields (URL : string -> bool) (req : Request) :
  add_validates URL req = true ->
  (get "name" (form req) <> None /\
   get "map_url" (form req) <> None /\
   get "img_url" (form req) <> None /\
   get "location" (form req) <> None /\
   get "seats" (form req) <> None) /\
  (select_field (get "has_toilet" (form req)) = true /\
   select_field (get "has_wifi" (form req)) = true /\
   select_field (get "has_sockets" (form req)) = true /\
   select_field (get "can_take_calls" (form req)) = true) /\
  exists p, get "coffee_price" (form req) = Some p.
Proof.
  unfold add_validates. intro H. apply andb_prop in H. destruct H as [S V].
  rewrite (AddCafeForm_submitted req S) in V. unfold validate_add in V.
  cbn [f_name f_map_url f_img_url f_location f_seats f_has_toilet f_has_wifi
       f_has_sockets f_can_take_calls f_coffee_price] in V.
  repeat (apply andb_prop in V; let H := fresh "V" in destruct V as [V H]).
  unfold string_field in *.
  repeat match goal with
  | H : DataRequired _ = true |- _ =>
      apply DataRequired_some in H; destruct H as (? & H & _)
  | H : url_field _ _ = true |- _ =>
      apply url_field_some in H; destruct H as (? & H & _)
  end.
  repeat split; try congruence. eauto.
Qed.

Lemma check_row_passes (c : Cafe) (others : list Cafe) :
  name c <> None -> map_url c <> None -> img_url c <> None ->
  location c <> None -> seats c <> None ->
  (forall r, In r others -> name r <> name c) ->
  check_row c others = None.
Proof.
  intros Hn Hm Hi Hl Hs Hu. unfold check_row.
  rewrite (existsb_same_name_false _ _ Hu).
  destruct (name c), (map_url c), (img_url c), (location c), (seats c);
    try contradiction; reflexivity.
Qed.

(** C1, as the code has it.  A submission of the add form that validates and
    whose name no row of the table bears yet: the request is answered by the
    redirect to the listing view, the table has grown by exactly one row, put
    last, and that row holds the submitted values, with each amenity mapped
    YES to true and NO to false and the price behind the currency glyph. *)
Theorem add_cafe_inserts_the_submission
    (URL : string -> bool) (req : Request) (w : World) :
  fresh_session w ->
  add_validates URL req = true ->
  (forall r, In r (cafes w) -> name r <> get "name" (form req)) ->
  exists row p,
    add_cafe URL req w
      = (Val (Redirect "get_all_cafes"), set_cafes (cafes w ++ [row]) w) /\
    length (cafes (snd (add_cafe URL req w))) = S (length (cafes w)) /\
    (name row = get "name" (form req) /\ name row <> None) /\
    (map_url row = get "map_url" (form req) /\ map_url row <> None) /\
    (img_url row = get "img_url" (form req) /\ img_url row <> None) /\
    (location row = get "location" (form req) /\ location row <> None) /\
    (seats row = get "seats" (form req) /\ seats row <> None) /\
    amenity_mapped (get "has_toilet" (form req)) (has_toilet row) /\
    amenity_mapped (get "has_wifi" (form req)) (has_wifi row) /\
    amenity_mapped (get "has_sockets" (form req)) (has_sockets row) /\
    amenity_mapped (get "can_take_calls" (form req)) (can_take_calls row) /\
    get "coffee_price" (form req) = Some p /\
    coffee_price row = Some (glyph ++ p).
Proof.
  intros P V U.
  destruct (add_validates_fields URL req V)
    as ((Hn & Hm & Hi & Hl & Hs) & (St & Sw & Ss & Sc) & (p & Hp)).
  exists (with_id (Some (fresh_id (cafes w))) (new_cafe req)), p.
  rewrite (add_cafe_runs URL req w P), V. cbv zeta.
  rewrite check_row_passes by assumption.
  cbn [snd set_cafes cafes with_id new_cafe name map_url img_url location
       seats has_toilet has_wifi has_sockets can_take_calls coffee_price].
  split; [reflexivity|].
  split; [rewrite length_app; simpl; lia|].
  repeat (split; [now split|]).
  repeat (split; [now apply select_field_mapped|]).
  split; [exact Hp | now rewrite Hp].
Qed.

Lemma add_cafe_inserts_the_submission_witness :
  let w := Sample.table [Sample.bean] in
  let req := Sample.post (Sample.cafe_form "Brew & Bytes" "Peckham" "3.50") in
  exists row p,
    add_cafe Sample.url req w
      = (Val (Redirect "get_all_cafes"), set_cafes (cafes w ++ [row]) w) /\
    length (cafes (snd (add_cafe Sample.url req w))) = 2 /\
    name row = Some "Brew & Bytes" /\
    amenity_mapped (Some "YES") (has_toilet row) /\
    amenity_mapped (Some "NO") (has_wifi row) /\
    p = "3.50" /\
    coffee_price row = Some "£3.50".
Proof.
  intros w req.
  destruct (add_cafe_inserts_the_submission Sample.url req w)
    as (row & p & Hrun & Hlen & (Hn & _) & _ & _ & _ & _
        & Ht & Hw & _ & _ & Hp & Hprice).
  - reflexivity.
  - reflexivity.
  - simpl. intros r [<-|[]]. discriminate.
  - exists row, p. split; [exact Hrun|]. split; [exact Hlen|].
    split; [exact Hn|]. split; [exact Ht|]. split; [exact Hw|].
    injection Hp as <-. split; [reflexivity | exact Hprice].
Defined.

(** The claim C1 without the condition on the name does not hold: a second
    submission under a name the table already has validates, the commit
    raises on the [unique] constraint, and the table is as it was. *)
Lemma add_cafe_duplicate_name_counterexample :
  let w := Sample.table [Sample.brew] in
  let req := Sample.post (Sample.cafe_form "Brew & Bytes" "Dulwich" "3.20") in
  fresh_session w /\
  add_validates Sample.url req = true /\
  fst (add_cafe Sample.url req w) = Raise (IntegrityError (Unique "name")) /\
  cafes (snd (add_cafe Sample.url req w)) = cafes w /\
  length (cafes (snd (add_cafe Sample.url req w))) <> S (length (cafes w)).
Proof.
  repeat split; try reflexivity. simpl. discriminate.
Qed.

(** C6.  The price [add_cafe] stores is the glyph followed by the submitted
    text, whatever that text is: the object built from the request has it,
    and so has the row a successful request appends.  A price of 3.50 is
    stored as £3.50. *)
Theorem add_cafe_always_prefixes_price :
  (forall req,
     coffee_price (new_cafe req)
       = Some (glyph ++ fmt (get "coffee_price" (form req)))) /\
  (forall URL req w p,
     fresh_session w ->
     get "coffee_price" (form req) = Some p ->
     fst (add_cafe URL req w) = Val (Redirect "get_all_cafes") ->
     exists row,
       cafes (snd (add_cafe URL req w)) = (cafes w ++ [row])%list /\
       coffee_price row = Some (glyph ++ p)) /\
  cafes (snd (add_cafe Sample.url
                (Sample.post (Sample.cafe_form "Brew & Bytes" "Peckham" "3.50"))
                (Sample.table [])))
    = [Sample.row 1 "Brew & Bytes" "Peckham" "£3.50"].
Proof.
  split; [reflexivity|]. split; [|reflexivity].
  intros URL req w p P Hp. rewrite (add_cafe_runs URL req w P).
  destruct (add_validates URL req); [|discriminate].
  cbv zeta.
  destruct (check_row _ (cafes w)); [discriminate|].
  intros _. eexists. split; [reflexivity|].
  cbn [with_id new_cafe coffee_price]. now rewrite Hp.
Qed.

Lemma add_cafe_always_prefixes_price_witness :
  let w := Sample.table [Sample.bean] in
  let req := Sample.post (Sample.cafe_form "Brew & Bytes" "Peckham" "£3.50") in
  exists row,
    cafes (snd (add_cafe Sample.url req w)) = (cafes w ++ [row])%list /\
    coffee_price row = Some "££3.50".
Proof.
  intros w req.
  refine (proj1 (proj2 add_cafe_always_prefixes_price)
            Sample.url req w "£3.50" _ _ _); reflexivity.
Defined.

(** ** Updating a cafe *)

Lemma startswith_glyph_not_blank (data : string) :
  startswith data glyph = true -> is_blank data = false.
Proof.
  unfold startswith, glyph.
  destruct data as [|a [|b rest]]; cbn [String.prefix]; try discriminate.
  - destruct (ascii_dec _ a); discriminate.
  - destruct (ascii_dec _ a) as [<-|]; [|discriminate].
    destruct (ascii_dec _ b) as [<-|]; [|discriminate].
    intros _. now destruct rest.
Qed.

Lemma price_field_glyph (data : string) :
  price_field (Some data) = startswith data glyph.
Proof.
  unfold price_field, validate_coffee_price, DataRequired.
  destruct (startswith data glyph) eqn:E; cbn [negb].
  - now rewrite (startswith_glyph_not_blank data E).
  - apply andb_false_r.
Qed.

Lemma process_present (fd : option MultiDict) (d : MultiDict)
    (field v : string) (data : option string) :
  fd = Some d -> get field d = Some v -> process fd field data = Some v.
Proof. intros -> H. unfold process. now rewrite H. Qed.

Lemma UpdateCafeForm_shows_submission (req : Request) (obj : Cafe) :
  is_submitted req = true -> shows_submission req (UpdateCafeForm req obj).
Proof.
  intro S. unfold shows_submission, UpdateCafeForm, formdata. rewrite S.
  cbn [f_name f_map_url f_img_url f_location f_seats f_has_toilet f_has_wifi
       f_has_sockets f_can_take_calls f_coffee_price].
  repeat split; intros v H; now apply (process_present _ (form req)).
Qed.

(** The ways [update_cafe] can go. *)
Lemma update_cafe_runs (URL : string -> bool) (req : Request) (cafe_id : Z)
    (w : World) :
  fresh_session w ->
  update_cafe URL req cafe_id w =
    match find (same_id (Some cafe_id)) (cafes w) with
    | None => (Raise NotFound, w)
    | Some loaded =>
        let form_ := UpdateCafeForm req loaded in
        let cafe := assign loaded form_ in
        if update_validates URL req loaded then
          match flush [Update cafe] (cafes w) with
          | inr rows =>
              (Val (Redirect "get_all_cafes"),
               {| cafes := rows;
                  pending := [];
                  flashed := flashed w ++
                    [mkFlash (Text (fmt (name cafe)
                                ++ "'s information updated successfully!!!"))
                             "success"];
                  outbox := outbox w |})
          | inl e =>
              (Raise (PendingRollbackError e),
               {| cafes := cafes w;
                  pending := [Update cafe];
                  flashed := flashed w;
                  outbox := outbox w |})
          end
        else (Val (RenderTemplate "edit.html" (CtxForm form_)), w)
    end.
Proof.
  intro P. unfold update_cafe. unfold bind at 1. unfold get_or_404.
  destruct (find (same_id (Some cafe_id)) (cafes w)) as [loaded|] eqn:F;
    [|reflexivity].
  apply find_same_id in F. destruct F as [_ Hid].
  cbv zeta. unfold update_validates.
  destruct (is_submitted req
            && validate_update URL req (UpdateCafeForm req loaded));
    [|reflexivity].
  destruct w as [rows ps fs ob]. unfold fresh_session in P. simpl in P.
  subst ps. simpl in Hid.
  unfold session_add. cbn [id assign]. rewrite Hid.
  cbv [bind try_except commit flash rollback ret raise
       name_after_failed_flush set_pending set_cafes
       set_flashed pending cafes flashed outbox List.app].
  destruct (flush _ rows) as [e|rows']; reflexivity.
Qed.

Lemma update_validates_price (URL : string -> bool) (req : Request)
    (loaded : Cafe) :
  update_validates URL req loaded = true ->
  is_submitted req = true /\
  select_field (f_has_toilet (UpdateCafeForm req loaded)) = true /\
  price_field (f_coffee_price (UpdateCafeForm req loaded)) = true.
Proof.
  unfold update_validates, validate_update. intro H.
  apply andb_prop in H. destruct H as [S H].
  repeat (apply andb_prop in H; let V := fresh "V" in destruct H as [H V]).
  repeat split; assumption.
Qed.

Lemma select_field_not_hydrated (b : bool) :
  select_field (Some (str_of_bool b)) = false.
Proof. now destruct b. Qed.

(** C2.  The price validator of the update form raises exactly on a text
    that does not begin with the glyph, and on no text that does; with
    [DataRequired] before it, the price field validates exactly when the text
    begins with the glyph, and a submission whose price does not never
    validates.  The update path stores the field's text as it is: after a
    successful update the row's price is the submitted price, nothing put in
    front. *)
Theorem update_price_needs_glyph :
  (forall data,
     validate_coffee_price data <> None <-> startswith data glyph = false) /\
  (forall data,
     startswith data glyph = true -> validate_coffee_price data = None) /\
  (forall data, price_field (Some data) = startswith data glyph) /\
  (forall URL req loaded p,
     get "coffee_price" (form req) = Some p ->
     startswith p glyph = false ->
     update_validates URL req loaded = false) /\
  (forall loaded f, coffee_price (assign loaded f) = f_coffee_price f) /\
  (forall URL req cafe_id w p,
     fresh_session w ->
     get "coffee_price" (form req) = Some p ->
     fst (update_cafe URL req cafe_id w) = Val (Redirect "get_all_cafes") ->
     startswith p glyph = true /\
     (exists row,
        In row (cafes (snd (update_cafe URL req cafe_id w))) /\
        id row = Some cafe_id) /\
     forall row,
       In row (cafes (snd (update_cafe URL req cafe_id w))) ->
       id row = Some cafe_id ->
       coffee_price row = Some p).
Proof.
  split; [|split; [|split; [|split; [|split]]]].
  - intro data. unfold validate_coffee_price.
    destruct (startswith data glyph); cbn [negb]; split; intro H;
      congruence.
  - intros data H. unfold validate_coffee_price. now rewrite H.
  - exact price_field_glyph.
  - intros URL req loaded p Hp Hs.
    destruct (update_validates URL req loaded) eqn:V; [|reflexivity].
    apply update_validates_price in V. destruct V as (S & _ & V).
    unfold UpdateCafeForm, formdata in V. rewrite S in V.
    cbn [f_coffee_price] in V.
    rewrite (process_present _ (form req) _ p _ eq_refl Hp) in V.
    rewrite price_field_glyph in V. congruence.
  - reflexivity.
  - intros URL req cafe_id w p P Hp.
    rewrite (update_cafe_runs URL req cafe_id w P).
    destruct (find (same_id (Some cafe_id)) (cafes w)) as [loaded|] eqn:F;
      [|discriminate].
    cbv zeta.
    destruct (update_validates URL req loaded) eqn:V; [|discriminate].
    apply update_validates_price in V. destruct V as (S & _ & V).
    assert (Hprice : f_coffee_price (UpdateCafeForm req loaded) = Some p).
    { unfold UpdateCafeForm, formdata. rewrite S. cbn [f_coffee_price].
      now apply (process_present _ (form req)). }
    rewrite Hprice, price_field_glyph in V.
    destruct (find_first _ _ _ F) as (before & after & Hrows & Hsame & _).
    apply same_id_spec in Hsame.
    cbn [flush flush1].
    destruct (check_row _ _); [discriminate|]. intros _. cbn [snd cafes].
    split; [exact V|]. split.
    + exists (assign loaded (UpdateCafeForm req loaded)). split.
      * apply in_map_iff. exists loaded. cbn [assign id].
        rewrite Hsame, (proj2 (same_id_spec cafe_id loaded) Hsame).
        split; [reflexivity|]. rewrite Hrows. apply in_elt.
      * exact Hsame.
    + intros row Hin Hid. apply in_map_iff in Hin.
      destruct Hin as (r & Hr & _). cbn [assign id] in Hr.
      rewrite Hsame in Hr.
      destruct (same_id (Some cafe_id) r) eqn:E.
      * subst row. exact Hprice.
      * subst row. apply same_id_spec in Hid. congruence.
Qed.

Lemma update_price_needs_glyph_witness :
  let w := Sample.table [Sample.brew; Sample.bean] in
  let req := Sample.post (Sample.cafe_form "Brew & Bytes" "Peckham" "£4.00") in
  update_validates Sample.url
    (Sample.post (Sample.cafe_form "Brew & Bytes" "Peckham" "4.00"))
    Sample.brew = false /\
  startswith "£4.00" glyph = true /\
  forall row,
    In row (cafes (snd (update_cafe Sample.url req 1 w))) ->
    id row = Some 1%Z ->
    coffee_price row = Some "£4.00".
Proof.
  intros w req.
  destruct update_price_needs_glyph as (_ & _ & _ & Hrej & _ & Hupd).
  split.
  - apply (Hrej Sample.url _ Sample.brew "4.00"); reflexivity.
  - destruct (Hupd Sample.url req 1%Z w "£4.00") as (Hs & _ & Hrow);
      try reflexivity.
    split; [exact Hs | exact Hrow].
Defined.

(** C5.  What the code does when the commit of a validating update fails.
    The exception is caught, and the handler's first step, the read of
    [cafe.name] for the notice, raises in its turn: nothing is flashed,
    [rollback()] is not reached, no page is rendered, and the request ends
    as an internal error (status 500).  The table is as it was. *)
Theorem update_failure_is_unhandled
    (URL : string -> bool) (req : Request) (cafe_id : Z) (w : World)
    (loaded : Cafe) (e : PyExc) :
  fresh_session w ->
  find (same_id (Some cafe_id)) (cafes w) = Some loaded ->
  update_validates URL req loaded = true ->
  flush [Update (assign loaded (UpdateCafeForm req loaded))] (cafes w)
    = inl e ->
  update_cafe URL req cafe_id w
    = (Raise (PendingRollbackError e),
       set_pending [Update (assign loaded (UpdateCafeForm req loaded))] w) /\
  status (fst (update_cafe URL req cafe_id w)) response_status = 500%Z /\
  flashed (snd (update_cafe URL req cafe_id w)) = flashed w /\
  pending (snd (update_cafe URL req cafe_id w)) <> [] /\
  cafes (snd (update_cafe URL req cafe_id w)) = cafes w.
Proof.
  intros P F V E.
  assert (R : update_cafe URL req cafe_id w
              = (Raise (PendingRollbackError e),
                 set_pending
                   [Update (assign loaded (UpdateCafeForm req loaded))] w)).
  { rewrite (update_cafe_runs URL req cafe_id w P), F. cbv zeta.
    now rewrite V, E. }
  rewrite R. cbn [fst snd set_pending flashed pending cafes status].
  repeat split. discriminate.
Qed.

Lemma update_failure_is_unhandled_witness :
  let w := Sample.table [Sample.brew; Sample.bean] in
  let req := Sample.post (Sample.cafe_form "Bean There" "Dulwich" "£4.00") in
  fst (update_cafe Sample.url req 1 w)
    = Raise (PendingRollbackError (IntegrityError (Unique "name"))) /\
  status (fst (update_cafe Sample.url req 1 w)) response_status = 500%Z /\
  flashed (snd (update_cafe Sample.url req 1 w)) = [] /\
  cafes (snd (update_cafe Sample.url req 1 w)) = [Sample.brew; Sample.bean].
Proof.
  intros w req.
  destruct (update_failure_is_unhandled
              Sample.url req 1 w Sample.brew (IntegrityError (Unique "name"))
              eq_refl eq_refl eq_refl eq_refl)
    as (Hrun & Hst & Hfl & _ & Hrows).
  split; [now rewrite Hrun|]. split; [exact Hst|].
  split; [exact Hfl | exact Hrows].
Defined.

(** ** The primary key is kept *)

Lemma NoDup_snoc {A} (l : list A) (x : A) :
  NoDup l -> ~ In x l -> NoDup (l ++ [x]).
Proof.
  induction l as [|a l IH]; intros N Hx; cbn [List.app].
  - constructor; [intros []|constructor].
  - inversion N as [|? ? Ha Hl]; subst. constructor.
    + intro Hin. apply in_app_or in Hin. destruct Hin as [Hin|[<-|[]]].
      * contradiction.
      * apply Hx. now left.
    + apply IH; [assumption|]. intro Hin. apply Hx. now right.
Qed.

Lemma fresh_id_above (rows : list Cafe) (i : Z) :
  In (Some i) (map id rows) -> (i < fresh_id rows)%Z.
Proof.
  unfold fresh_id, row_ids.
  induction rows as [|r rows IH]; cbn [map In flat_map]; [intros []|].
  intros [E|Hin].
  - rewrite E. cbn [List.app fold_right]. lia.
  - specialize (IH Hin). destruct (id r); cbn [List.app fold_right]; lia.
Qed.

Lemma map_id_other_rows (i : option Z) (rows : list Cafe) (x : option Z) :
  In x (map id (other_rows i rows)) -> In x (map id rows).
Proof.
  intro H. apply in_map_iff in H. destruct H as (r & <- & Hr).
  apply filter_In in Hr. apply in_map. tauto.
Qed.

Lemma keyed_other_rows (i : option Z) (rows : list Cafe) :
  keyed rows -> keyed (other_rows i rows).
Proof.
  unfold keyed. induction rows as [|r rows IH]; intro K; [constructor|].
  cbn [map] in K. inversion K as [|? ? Hr Hrows]; subst.
  rewrite other_rows_cons. destruct (same_id i r); [now apply IH|].
  cbn [map]. constructor; [|now apply IH].
  intro Hin. apply Hr. now apply map_id_other_rows in Hin.
Qed.

(** Whatever is committed, the rows of the table keep distinct keys. *)
Lemma flush_keyed (ps : list Pending) (rows rows' : list Cafe) :
  keyed rows -> flush ps rows = inr rows' -> keyed rows'.
Proof.
  revert rows. induction ps as [|p ps IH]; intros rows K F; cbn [flush] in F.
  - now injection F as <-.
  - destruct (flush1 p rows) as [e|rows1] eqn:F1; [discriminate|].
    apply (IH rows1); [|exact F]. clear IH F.
    destruct p as [c|c|c]; cbn [flush1] in F1.
    + cbv zeta in F1. destruct (check_row _ rows); [discriminate|].
      injection F1 as <-. unfold keyed. rewrite map_app. cbn [map with_id id].
      apply NoDup_snoc; [exact K|].
      intro Hin. apply fresh_id_above in Hin. lia.
    + destruct (check_row _ _); [discriminate|]. injection F1 as <-.
      unfold keyed. rewrite map_map.
      erewrite map_ext; [exact K|].
      intro r. cbn beta. destruct (same_id (id c) r) eqn:E; [|reflexivity].
      unfold same_id in E. destruct (id c) as [a|]; [|discriminate].
      destruct (id r) as [b|]; [|discriminate].
      apply Z.eqb_eq in E. now subst.
    + injection F1 as <-. now apply keyed_other_rows.
Qed.

(** * Further properties of the handlers *)

(** ** The schema's constraints are kept *)

Lemma same_name_spec (n : string) (c : Cafe) :
  same_name (Some n) c = true <-> name c = Some n.
Proof.
  unfold same_name. destruct (name c) as [m|]; split; intro H;
    try discriminate.
  - apply String.eqb_eq in H. now subst.
  - injection H as ->. apply String.eqb_refl.
Qed.

Lemma check_row_none (c : Cafe) (others : list Cafe) :
  check_row c others = None ->
  (name c <> None /\ map_url c <> None /\ img_url c <> None /\
   location c <> None /\ seats c <> None) /\
  forall r, In r others -> name r <> name c.
Proof.
  unfold check_row.
  destruct (name c) as [n|]; [|discriminate].
  destruct (map_url c); [|discriminate].
  destruct (img_url c); [|discriminate].
  destruct (location c); [|discriminate].
  destruct (seats c); [|discriminate].
  cbn [is_null].
  destruct (existsb (same_name (Some n)) others) eqn:E; [discriminate|].
  intros _. split; [repeat split; discriminate|].
  intros r Hin Hn. apply same_name_spec in Hn.
  assert (X : existsb (same_name (Some n)) others = true)
    by (apply existsb_exists; now exists r).
  congruence.
Qed.

Lemma names_other_rows (i : option Z) (rows : list Cafe) :
  NoDup (map name rows) -> NoDup (map name (other_rows i rows)).
Proof.
  induction rows as [|r rows IH]; intro N; [constructor|].
  cbn [map] in N. inversion N as [|? ? Hr Hrows]; subst.
  rewrite other_rows_cons. destruct (same_id i r); [now apply IH|].
  cbn [map]. constructor; [|now apply IH].
  intro Hin. apply Hr. apply in_map_iff in Hin.
  destruct Hin as (x & Hx & Hin). apply filter_In in Hin.
  rewrite <- Hx. apply in_map. tauto.
Qed.

(** In a keyed table the rows around the one with key [i] do not have it. *)
Lemma keyed_around (i : Z) (before after : list Cafe) (target : Cafe) :
  keyed (before ++ target :: after) ->
  id target = Some i ->
  forall r, In r (before ++ after) -> same_id (Some i) r = false.
Proof.
  unfold keyed. intros K Hid r Hin. rewrite map_app in K. cbn [map] in K.
  apply NoDup_remove_2 in K. rewrite <- map_app in K.
  destruct (same_id (Some i) r) eqn:E; [|reflexivity].
  apply same_id_spec in E. exfalso. apply K.
  rewrite Hid, <- E. now apply in_map.
Qed.

(** Overwriting the row with key [i] of a keyed table changes that one row,
    in its place. *)
Lemma overwrite_split (i : Z) (rows : list Cafe) (target c : Cafe) :
  keyed rows ->
  find (same_id (Some i)) rows = Some target ->
  exists before after,
    rows = (before ++ target :: after)%list /\
    map (fun r => if same_id (Some i) r then c else r) rows
      = (before ++ c :: after)%list /\
    other_rows (Some i) rows = (before ++ after)%list.
Proof.
  intros K F.
  destruct (other_rows_split i rows target K F)
    as (before & after & Hrows & Hout).
  exists before, after. split; [exact Hrows|]. split; [|exact Hout].
  subst rows. apply find_same_id in F. destruct F as [_ Hid].
  pose proof (keyed_around i before after target K Hid) as Hoff.
  assert (Hm : forall l,
             (forall r, In r l -> same_id (Some i) r = false) ->
             map (fun r => if same_id (Some i) r then c else r) l = l).
  { induction l as [|x l IHl]; intro Hl; [reflexivity|].
    cbn [map]. rewrite (Hl x (or_introl eq_refl)). f_equal.
    apply IHl. intros r Hr. apply Hl. now right. }
  rewrite map_app. cbn [map].
  rewrite (proj2 (same_id_spec i target) Hid).
  rewrite !Hm; [reflexivity| |];
    intros r Hr; apply Hoff, in_or_app; [now right | now left].
Qed.

Lemma NoDup_middle {A} (a : A) (l1 l2 : list A) :
  NoDup (l1 ++ l2) -> ~ In a (l1 ++ l2) -> NoDup (l1 ++ a :: l2).
Proof.
  induction l1 as [|x l1 IH]; cbn [List.app]; intros N Ha.
  - now constructor.
  - inversion N as [|? ? Hx Hl]; subst. constructor.
    + intro Hin. apply in_app_or in Hin. destruct Hin as [Hin|[->|Hin]].
      * apply Hx, in_or_app. now left.
      * apply Ha. now left.
      * apply Hx, in_or_app. now right.
    + apply IH; [assumption|]. intro Hin. apply Ha. now right.
Qed.

Lemma same_id_none (r : Cafe) : same_id None r = false.
Proof. reflexivity. Qed.

Lemma overwrite_absent (i : option Z) (c : Cafe) (rows : list Cafe) :
  (forall r, In r rows -> same_id i r = false) ->
  map (fun r => if same_id i r then c else r) rows = rows.
Proof.
  induction rows as [|x rows IH]; intro H; [reflexivity|].
  cbn [map]. rewrite (H x (or_introl eq_refl)). f_equal.
  apply IH. intros r Hr. apply H. now right.
Qed.

Lemma flush1_schema (p : Pending) (rows rows' : list Cafe) :
  schema_ok rows -> flush1 p rows = inr rows' -> schema_ok rows'.
Proof.
  intros (K & N & C) F. destruct p as [c|c|c]; cbn [flush1] in F.
  - cbv zeta in F.
    destruct (check_row _ rows) eqn:R; [discriminate|]. injection F as <-.
    apply check_row_none in R. destruct R as ((Hn & Hm & Hi & Hl & Hs) & Hu).
    split; [|split].
    + apply (flush_keyed [Insert c] rows); [exact K|].
      cbn [flush flush1].
      now rewrite (check_row_passes _ rows Hn Hm Hi Hl Hs Hu).
    + rewrite map_app. cbn [map]. apply NoDup_snoc; [exact N|].
      intro Hin. apply in_map_iff in Hin. destruct Hin as (r & Hr & Hin).
      now apply (Hu r Hin).
    + apply Forall_app. split; [exact C|]. constructor; [|constructor].
      repeat split; try assumption. discriminate.
  - destruct (check_row _ _) eqn:R; [discriminate|]. injection F as <-.
    apply check_row_none in R. destruct R as ((Hn & Hm & Hi & Hl & Hs) & Hu).
    destruct (id c) as [i|] eqn:Hid.
    + destruct (find (same_id (Some i)) rows) as [target|] eqn:T.
      * destruct (overwrite_split i rows target c K T)
          as (before & after & -> & -> & Hout).
        rewrite Hout in Hu. apply find_same_id in T. destruct T as [_ Ht].
        split; [|split].
        -- unfold keyed in *. rewrite map_app in *. cbn [map] in *.
           now rewrite Hid, <- Ht.
        -- rewrite map_app in *. cbn [map] in *.
           apply NoDup_middle; [now apply NoDup_remove_1 in N|].
           rewrite <- map_app. intro Hin. apply in_map_iff in Hin.
           destruct Hin as (r & Hr & Hin). now apply (Hu r Hin).
        -- apply Forall_app in C. destruct C as [Cb Ca].
           inversion Ca as [|? ? _ Ca']; subst.
           apply Forall_app. split; [exact Cb|]. constructor; [|exact Ca'].
           repeat split; try assumption. congruence.
      * rewrite overwrite_absent; [now repeat split|].
        intros r Hr. exact (find_none _ _ T r Hr).
    + rewrite overwrite_absent; [now repeat split|].
      intros r _. apply same_id_none.
  - injection F as <-. split; [|split].
    + now apply keyed_other_rows.
    + now apply names_other_rows.
    + apply Forall_forall. intros r Hr. apply filter_In in Hr.
      rewrite Forall_forall in C. apply C. tauto.
Qed.

Lemma flush_schema (ps : list Pending) (rows rows' : list Cafe) :
  schema_ok rows -> flush ps rows = inr rows' -> schema_ok rows'.
Proof.
  revert rows. induction ps as [|p ps IH]; intros rows S F; cbn [flush] in F.
  - now injection F as <-.
  - destruct (flush1 p rows) as [e|rows1] eqn:F1; [discriminate|].
    apply (IH rows1); [|exact F]. now apply (flush1_schema p rows).
Qed.

(** A commit either fails and leaves the table, or succeeds and leaves a
    table that is what the flush made of it. *)
Lemma commit_table (w : World) :
  cafes (snd (commit w)) = cafes w \/
  flush (pending w) (cafes w) = inr (cafes (snd (commit w))).
Proof.
  unfold commit. destruct (flush (pending w) (cafes w)) as [e|rows] eqn:F.
  - now left.
  - right. reflexivity.
Qed.

(** X9.  The three writing views keep the constraints of the schema: from
    a table whose rows have distinct keys, distinct names and values in the
    NOT NULL columns, a request to add, update or delete/report leaves such
    a table, whether it succeeds, fails validation or fails at commit. *)
Theorem views_keep_schema
    (URL : string -> bool) (conf : Config) (relay : Relay) (req : Request)
    (cafe_id : Z) (w : World) :
  fresh_session w ->
  schema_ok (cafes w) ->
  schema_ok (cafes (snd (add_cafe URL req w))) /\
  schema_ok (cafes (snd (update_cafe URL req cafe_id w))) /\
  schema_ok (cafes (snd (delete_cafe conf relay req cafe_id w))).
Proof.
  intros P S. split; [|split].
  - rewrite (add_cafe_runs URL req w P).
    destruct (add_validates URL req); [|exact S]. cbv zeta.
    destruct (check_row _ (cafes w)) eqn:R; [exact S|].
    cbn [snd set_cafes cafes].
    apply (flush1_schema (Insert (new_cafe req)) (cafes w)); [exact S|].
    cbn [flush1]. now rewrite R.
  - rewrite (update_cafe_runs URL req cafe_id w P).
    destruct (find (same_id (Some cafe_id)) (cafes w)) as [loaded|];
      [|exact S].
    cbv zeta. destruct (update_validates URL req loaded); [|exact S].
    destruct (flush _ (cafes w)) as [e|rows] eqn:F; [exact S|].
    exact (flush_schema _ _ _ S F).
  - destruct (opt_eqb (get "api_key" (form req)) (API_KEY conf)) eqn:E.
    + apply opt_eqb_eq in E.
      rewrite (delete_cafe_key conf relay req cafe_id w E P).
      destruct (find (same_id (Some cafe_id)) (cafes w)) as [c|] eqn:F;
        [|exact S].
      cbn [snd cafes]. apply find_same_id in F. destruct F as [_ Hid].
      apply (flush1_schema (Delete c) (cafes w)); [exact S|].
      cbn [flush1]. now rewrite Hid.
    + apply opt_eqb_neq in E.
      rewrite (delete_cafe_no_key conf relay req cafe_id E).
      now rewrite (proj1 (report_branch_frame conf relay req cafe_id w)).
Qed.

Lemma views_keep_schema_witness :
  let w := Sample.table [Sample.brew; Sample.bean] in
  let req := Sample.post (Sample.cafe_form "Third Place" "Soho" "2.90") in
  schema_ok (cafes (snd (add_cafe Sample.url req w))) /\
  schema_ok (cafes (snd (update_cafe Sample.url req 2 w))) /\
  schema_ok (cafes (snd (delete_cafe Sample.conf None req 2 w))).
Proof.
  intros w req.
  apply (views_keep_schema Sample.url Sample.conf None req 2 w).
  - reflexivity.
  - unfold schema_ok, keyed, complete. simpl.
    repeat split; repeat constructor; simpl; intuition discriminate.
Defined.

(** ** More on [update_cafe] *)

Lemma select_from_submission (req : Request) (field : string) (b : bool) :
  is_submitted req = true ->
  select_field (process (formdata req) field (Some (str_of_bool b))) = true ->
  process (formdata req) field (Some (str_of_bool b)) = get field (form req).
Proof.
  intros S. unfold formdata. rewrite S. unfold process.
  destruct (get field (form req)); [reflexivity|].
  now rewrite select_field_not_hydrated.
Qed.

(** What validation of the update form gives about the fields. *)
Lemma update_validates_fields (URL : string -> bool) (req : Request)
    (loaded : Cafe) :
  update_validates URL req loaded = true ->
  let f := UpdateCafeForm req loaded in
  is_submitted req = true /\
  (f_name f <> None /\ f_map_url f <> None /\ f_img_url f <> None /\
   f_location f <> None /\ f_seats f <> None) /\
  (f_has_toilet f = get "has_toilet" (form req) /\
   f_has_wifi f = get "has_wifi" (form req) /\
   f_has_sockets f = get "has_sockets" (form req) /\
   f_can_take_calls f = get "can_take_calls" (form req)) /\
  (select_field (f_has_toilet f) = true /\
   select_field (f_has_wifi f) = true /\
   select_field (f_has_sockets f) = true /\
   select_field (f_can_take_calls f) = true).
Proof.
  intro H. cbv zeta. unfold update_validates, validate_update in H.
  apply andb_prop in H. destruct H as [S H].
  repeat (apply andb_prop in H; let V := fresh "V" in destruct H as [H V]).
  unfold string_field in *.
  split; [exact S|]. split; [|split].
  - repeat match goal with
    | X : DataRequired _ = true |- _ =>
        apply DataRequired_some in X; destruct X as (? & X & _)
    | X : url_field _ _ = true |- _ =>
        apply url_field_some in X; destruct X as (? & X & _)
    end.
    repeat split; congruence.
  - unfold UpdateCafeForm in *.
    cbn [f_has_toilet f_has_wifi f_has_sockets f_can_take_calls] in *.
    repeat split; now apply select_from_submission.
  - repeat split; assumption.
Qed.

Lemma assign_holds_submission (URL : string -> bool) (req : Request)
    (loaded : Cafe) :
  update_validates URL req loaded = true ->
  holds_submission req (assign loaded (UpdateCafeForm req loaded)).
Proof.
  intro V.
  destruct (update_validates_fields URL req loaded V)
    as (S & _ & (Et & Ew & Es & Ec) & (St & Sw & Ss & Sc)).
  destruct (UpdateCafeForm_shows_submission req loaded S)
    as (Hn & Hm & Hi & Hl & Hse & _ & _ & _ & _ & Hp).
  unfold holds_submission.
  cbn [assign name map_url img_url location seats has_toilet has_wifi
       has_sockets can_take_calls coffee_price].
  repeat (split; [assumption|]).
  split; [rewrite <- Et; now apply select_field_mapped|].
  split; [rewrite <- Ew; now apply select_field_mapped|].
  split; [rewrite <- Es; now apply select_field_mapped|].
  split; [rewrite <- Ec; now apply select_field_mapped|].
  exact Hp.
Qed.

Lemma update_validates_not_null (URL : string -> bool) (req : Request)
    (loaded : Cafe) :
  update_validates URL req loaded = true ->
  let c := assign loaded (UpdateCafeForm req loaded) in
  name c <> None /\ map_url c <> None /\ img_url c <> None /\
  location c <> None /\ seats c <> None.
Proof.
  intro V. cbv zeta.
  destruct (update_validates_fields URL req loaded V) as (_ & H & _).
  exact H.
Qed.

Lemma in_other_rows (i : Z) (rows : list Cafe) (r : Cafe) :
  In r (other_rows (Some i) rows) <-> In r rows /\ id r <> Some i.
Proof.
  unfold other_rows. rewrite filter_In, negb_true_iff, <- same_id_spec.
  now destruct (same_id (Some i) r).
Qed.

(** X1.  A successful update overwrites the target and nothing else: for a
    submission that validates, on a row that exists, under a name no other
    row bears, the answer is the redirect, the table is the one before with
    the target replaced in its place by a row of the same key that holds the
    submitted values, and every other row is where and what it was. *)
Theorem update_cafe_overwrites_target
    (URL : string -> bool) (req : Request) (cafe_id : Z) (w : World)
    (loaded : Cafe) :
  fresh_session w ->
  keyed (cafes w) ->
  find (same_id (Some cafe_id)) (cafes w) = Some loaded ->
  update_validates URL req loaded = true ->
  (forall r, In r (cafes w) -> id r <> Some cafe_id ->
             name r <> f_name (UpdateCafeForm req loaded)) ->
  exists before after row w',
    cafes w = (before ++ loaded :: after)%list /\
    update_cafe URL req cafe_id w = (Val (Redirect "get_all_cafes"), w') /\
    cafes w' = (before ++ row :: after)%list /\
    id row = Some cafe_id /\
    holds_submission req row /\
    pending w' = [] /\
    outbox w' = outbox w /\
    flashed w' =
      (flashed w ++
       [mkFlash (Text (fmt (name row)
                       ++ "'s information updated successfully!!!"))
                "success"])%list.
Proof.
  intros P K F V U.
  pose proof (find_same_id _ _ _ F) as [_ Hid].
  destruct (update_validates_not_null URL req loaded V)
    as (Hn & Hm & Hi & Hl & Hs).
  set (c := assign loaded (UpdateCafeForm req loaded)) in *.
  destruct (overwrite_split cafe_id (cafes w) loaded c K F)
    as (before & after & Hrows & Hmap & Hout).
  exists before, after, c.
  rewrite (update_cafe_runs URL req cafe_id w P), F. cbv zeta.
  rewrite V. fold c. cbn [flush flush1].
  assert (Hc : id c = Some cafe_id) by exact Hid. rewrite Hc.
  rewrite check_row_passes; try assumption.
  - eexists. split; [exact Hrows|]. split; [reflexivity|].
    cbn [cafes pending outbox flashed]. split; [exact Hmap|].
    split; [reflexivity|].
    split; [now apply (assign_holds_submission URL)|].
    repeat split.
  - intros r Hr. apply in_other_rows in Hr. destruct Hr as [Hin Hne].
    exact (U r Hin Hne).
Qed.

Lemma update_cafe_overwrites_target_witness :
  let w := Sample.table [Sample.brew; Sample.bean] in
  let req := Sample.post (Sample.cafe_form "Bean Here" "Dulwich" "£3.10") in
  exists before after row w',
    cafes w = (before ++ Sample.bean :: after)%list /\
    update_cafe Sample.url req 2 w = (Val (Redirect "get_all_cafes"), w') /\
    cafes w' = (before ++ row :: after)%list /\
    id row = Some 2%Z /\
    name row = Some "Bean Here" /\
    coffee_price row = Some "£3.10".
Proof.
  intros w req.
  destruct (update_cafe_overwrites_target Sample.url req 2 w Sample.bean)
    as (before & after & row & w' & Hrows & Hrun & Hrows' & Hid & Hsub & _).
  - reflexivity.
  - unfold keyed. simpl. repeat constructor; simpl; intuition discriminate.
  - reflexivity.
  - reflexivity.
  - simpl. intros r [<-|[<-|[]]] Hne; [discriminate | now elim Hne].
  - exists before, after, row, w'.
    destruct Hsub as (Hn & _ & _ & _ & _ & _ & _ & _ & _ & Hp).
    repeat split; try assumption; [apply Hn | apply Hp]; reflexivity.
Defined.

Lemma check_row_fails_on_name (c : Cafe) (others : list Cafe)
    (k : Constraint) :
  name c <> None -> map_url c <> None -> img_url c <> None ->
  location c <> None -> seats c <> None ->
  check_row c others = Some k -> k = Unique "name".
Proof.
  intros Hn Hm Hi Hl Hs. unfold check_row.
  destruct (name c), (map_url c), (img_url c), (location c), (seats c);
    try contradiction.
  cbn [is_null]. destruct (existsb _ others); [|discriminate].
  now intros [= <-].
Qed.

(** X2.  With a submission that validates on an existing row, the update
    is committed exactly when no other row bears the submitted name; the
    row's own name is no obstacle.  Otherwise the commit raises on the
    [unique] constraint and the request ends as an internal error (status
    500): nothing is flashed and the table is as it was. *)
Theorem update_cafe_succeeds_iff_name_free
    (URL : string -> bool) (req : Request) (cafe_id : Z) (w : World)
    (loaded : Cafe) :
  fresh_session w ->
  find (same_id (Some cafe_id)) (cafes w) = Some loaded ->
  update_validates URL req loaded = true ->
  (fst (update_cafe URL req cafe_id w) = Val (Redirect "get_all_cafes") <->
   forall r, In r (cafes w) -> id r <> Some cafe_id ->
             name r <> f_name (UpdateCafeForm req loaded)) /\
  (fst (update_cafe URL req cafe_id w) <> Val (Redirect "get_all_cafes") ->
   fst (update_cafe URL req cafe_id w)
     = Raise (PendingRollbackError (IntegrityError (Unique "name"))) /\
   status (fst (update_cafe URL req cafe_id w)) response_status = 500%Z /\
   flashed (snd (update_cafe URL req cafe_id w)) = flashed w /\
   cafes (snd (update_cafe URL req cafe_id w)) = cafes w).
Proof.
  intros P F V.
  pose proof (find_same_id _ _ _ F) as [_ Hid].
  destruct (update_validates_not_null URL req loaded V)
    as (Hn & Hm & Hi & Hl & Hs).
  rewrite (update_cafe_runs URL req cafe_id w P), F. cbv zeta.
  rewrite V. cbn [flush flush1].
  set (c := assign loaded (UpdateCafeForm req loaded)) in *.
  assert (Hc : id c = Some cafe_id) by exact Hid. rewrite Hc.
  destruct (check_row c (other_rows (Some cafe_id) (cafes w))) eqn:R.
  - rewrite (check_row_fails_on_name _ _ _ Hn Hm Hi Hl Hs R) in *.
    cbn [fst snd cafes flashed status]. split; [|now repeat split].
    split; [discriminate|].
    intro U. rewrite check_row_passes in R; try assumption; [discriminate|].
    intros r Hr. apply in_other_rows in Hr. destruct Hr as [Hin Hne].
    exact (U r Hin Hne).
  - cbn [fst]. split; [|intro X; now elim X]. split; [|reflexivity].
    intros _ r Hin Hne. apply check_row_none in R. destruct R as [_ R].
    apply R. now apply in_other_rows.
Qed.

Lemma update_cafe_succeeds_iff_name_free_witness :
  let w := Sample.table [Sample.brew; Sample.bean] in
  fst (update_cafe Sample.url
         (Sample.post (Sample.cafe_form "Brew & Bytes" "Soho" "£3.60")) 1 w)
    = Val (Redirect "get_all_cafes") /\
  cafes (snd (update_cafe Sample.url
                (Sample.post (Sample.cafe_form "Bean There" "Soho" "£3.60"))
                1 w))
    = cafes w.
Proof.
  intro w. split.
  - apply (proj1 (update_cafe_succeeds_iff_name_free Sample.url
                    (Sample.post
                       (Sample.cafe_form "Brew & Bytes" "Soho" "£3.60"))
                    1 w Sample.brew eq_refl eq_refl eq_refl)).
    simpl. intros r [<-|[<-|[]]] Hne; [now elim Hne | discriminate].
  - apply (proj2 (update_cafe_succeeds_iff_name_free Sample.url
                    (Sample.post
                       (Sample.cafe_form "Bean There" "Soho" "£3.60"))
                    1 w Sample.brew eq_refl eq_refl eq_refl)).
    discriminate.
Defined.

(** X3.  [update_cafe] looks the row up before anything else: for a key
    no row has, every request, whatever its method and fields, ends in
    NotFound (status 404) and leaves the world as it was. *)
Theorem update_cafe_absent_row_is_not_found
    (URL : string -> bool) (req : Request) (cafe_id : Z) (w : World) :
  (forall r, In r (cafes w) -> id r <> Some cafe_id) ->
  update_cafe URL req cafe_id w = (Raise NotFound, w) /\
  status (fst (update_cafe URL req cafe_id w)) response_status = 404%Z.
Proof.
  intro H.
  assert (F : find (same_id (Some cafe_id)) (cafes w) = None).
  { destruct (find (same_id (Some cafe_id)) (cafes w)) as [c|] eqn:F;
      [|reflexivity].
    apply find_same_id in F. destruct F as [Hin Hid]. now elim (H c Hin). }
  assert (E : update_cafe URL req cafe_id w = (Raise NotFound, w)).
  { unfold update_cafe. unfold bind at 1. unfold get_or_404.
    now rewrite F. }
  rewrite E. now split.
Qed.

Lemma update_cafe_absent_row_is_not_found_witness :
  let w := Sample.table [Sample.brew; Sample.bean] in
  let req := Sample.post (Sample.cafe_form "Bean Here" "Dulwich" "£3.10") in
  update_cafe Sample.url req 7 w = (Raise NotFound, w) /\
  status (fst (update_cafe Sample.url req 7 w)) response_status = 404%Z.
Proof.
  intros w req. apply update_cafe_absent_row_is_not_found.
  simpl. intros r [<-|[<-|[]]]; discriminate.
Defined.

(** X4.  Without a submission that validates, [update_cafe] on an existing
    row writes nothing and flashes nothing: it renders the edit page with the
    form.  For a request that is not a submission (GET) that form is filled
    from the stored row alone, whatever fields the request carries: the texts
    as stored, each amenity as the text of its Boolean. *)
Theorem update_cafe_without_valid_submission
    (URL : string -> bool) (req : Request) (cafe_id : Z) (w : World)
    (loaded : Cafe) :
  find (same_id (Some cafe_id)) (cafes w) = Some loaded ->
  update_validates URL req loaded = false ->
  update_cafe URL req cafe_id w
    = (Val (RenderTemplate "edit.html"
              (CtxForm (UpdateCafeForm req loaded))), w) /\
  (is_submitted req = false ->
   UpdateCafeForm req loaded = hydrated loaded /\
   f_name (hydrated loaded) = name loaded /\
   f_map_url (hydrated loaded) = map_url loaded /\
   f_img_url (hydrated loaded) = img_url loaded /\
   f_location (hydrated loaded) = location loaded /\
   f_seats (hydrated loaded) = seats loaded /\
   f_has_toilet (hydrated loaded) = Some (str_of_bool (has_toilet loaded)) /\
   f_has_wifi (hydrated loaded) = Some (str_of_bool (has_wifi loaded)) /\
   f_has_sockets (hydrated loaded)
     = Some (str_of_bool (has_sockets loaded)) /\
   f_can_take_calls (hydrated loaded)
     = Some (str_of_bool (can_take_calls loaded)) /\
   f_coffee_price (hydrated loaded) = coffee_price loaded).
Proof.
  intros F V. split.
  - unfold update_cafe. unfold bind at 1. unfold get_or_404. rewrite F.
    cbv zeta. unfold update_validates in V. rewrite V. reflexivity.
  - intro S. split; [|repeat split].
    unfold hydrated, UpdateCafeForm, formdata. now rewrite S.
Qed.

Lemma update_cafe_without_valid_submission_witness :
  let w := Sample.table [Sample.brew; Sample.bean] in
  let req := {| method := GET; args := [];
                form := Sample.cafe_form "Ignored" "Nowhere" "£0";
                csrf_ok := true |} in
  update_cafe Sample.url req 1 w
    = (Val (RenderTemplate "edit.html" (CtxForm (hydrated Sample.brew))), w).
Proof.
  intros w req.
  destruct (update_cafe_without_valid_submission
              Sample.url req 1 w Sample.brew eq_refl eq_refl) as [Hrun Hget].
  destruct (Hget eq_refl) as [Hform _].
  now rewrite <- Hform.
Defined.

(** X5.  The amenities of an update always come from the submission: a
    submission that validates carries each of the four selections itself, as
    YES or NO.  What the stored row has for them is never enough, since the
    form holds a stored Boolean as True or False. *)
Theorem update_needs_the_four_amenities
    (URL : string -> bool) (req : Request) (loaded : Cafe) :
  update_validates URL req loaded = true ->
  (get "has_toilet" (form req) = Some "YES" \/
   get "has_toilet" (form req) = Some "NO") /\
  (get "has_wifi" (form req) = Some "YES" \/
   get "has_wifi" (form req) = Some "NO") /\
  (get "has_sockets" (form req) = Some "YES" \/
   get "has_sockets" (form req) = Some "NO") /\
  (get "can_take_calls" (form req) = Some "YES" \/
   get "can_take_calls" (form req) = Some "NO").
Proof.
  intro V.
  destruct (update_validates_fields URL req loaded V)
    as (_ & _ & (Et & Ew & Es & Ec) & (St & Sw & Ss & Sc)).
  rewrite Et in St. rewrite Ew in Sw. rewrite Es in Ss. rewrite Ec in Sc.
  apply select_field_mapped in St, Sw, Ss, Sc.
  unfold amenity_mapped in *. tauto.
Qed.

Lemma update_needs_the_four_amenities_witness :
  let req := Sample.post (Sample.cafe_form "Brew & Bytes" "Soho" "£3.60") in
  get "has_wifi" (form req) = Some "YES" \/
  get "has_wifi" (form req) = Some "NO".
Proof.
  intro req.
  exact (proj1 (proj2 (update_needs_the_four_amenities
                         Sample.url req Sample.brew eq_refl))).
Defined.

(** X6.  What [add_cafe] stores for the price always passes the price
    field of the update form: the text built from any request begins with the
    glyph and is not blank, so a row added through the add form can be sent
    back through the update form with its price untouched. *)
Theorem added_price_passes_update_validator (req : Request) :
  price_field (coffee_price (new_cafe req)) = true /\
  forall (URL : string -> bool) (w : World) (row : Cafe),
    fresh_session w ->
    In row (cafes (snd (add_cafe URL req w))) ->
    ~ In row (cafes w) ->
    price_field (coffee_price row) = true.
Proof.
  assert (Hp : price_field (coffee_price (new_cafe req)) = true).
  { cbn [new_cafe coffee_price]. rewrite price_field_glyph.
    unfold startswith, glyph. cbn [String.append String.prefix].
    repeat (destruct (ascii_dec _ _) as [_|X]; [|now elim X]).
    now destruct (fmt _). }
  split; [exact Hp|].
  intros URL w row P. rewrite (add_cafe_runs URL req w P).
  destruct (add_validates URL req); [|now intros].
  cbv zeta. destruct (check_row _ (cafes w)); [now intros|].
  cbn [snd set_cafes cafes]. intros Hin Hnew.
  apply in_app_or in Hin. destruct Hin as [Hin|[<-|[]]]; [contradiction|].
  exact Hp.
Qed.

Lemma added_price_passes_update_validator_witness :
  let req := Sample.post (Sample.cafe_form "Third Place" "Soho" "2.90") in
  let w := Sample.table [Sample.brew] in
  price_field (coffee_price (Sample.row 2 "Third Place" "Soho" "£2.90"))
    = true.
Proof.
  intros req w.
  apply (proj2 (added_price_passes_update_validator req) Sample.url w).
  - reflexivity.
  - simpl. right. left. reflexivity.
  - simpl. intros [H|[]]. discriminate.
Defined.

(** ** More on [add_cafe] *)

(** X7.  A submission of the add form that validates under a name some row
    already bears is not stored and not answered: the commit raises on the
    [unique] constraint, nothing in [add_cafe] catches it, the request ends
    as an internal error (status 500) and the table is as it was. *)
Theorem add_cafe_duplicate_name_is_unhandled
    (URL : string -> bool) (req : Request) (w : World) (r : Cafe) :
  fresh_session w ->
  add_validates URL req = true ->
  In r (cafes w) ->
  name r = get "name" (form req) ->
  add_cafe URL req w
    = (Raise (IntegrityError (Unique "name")),
       set_pending [Insert (new_cafe req)] w) /\
  cafes (snd (add_cafe URL req w)) = cafes w /\
  status (fst (add_cafe URL req w)) response_status = 500%Z.
Proof.
  intros P V Hin Hname.
  destruct (add_validates_fields URL req V)
    as ((Hn & Hm & Hi & Hl & Hs) & _ & _).
  assert (E : add_cafe URL req w
              = (Raise (IntegrityError (Unique "name")),
                 set_pending [Insert (new_cafe req)] w)).
  { rewrite (add_cafe_runs URL req w P), V. cbv zeta.
    unfold check_row.
    cbn [with_id new_cafe name map_url img_url location seats].
    destruct (get "name" (form req)) as [n|] eqn:En; [|now elim Hn].
    destruct (get "map_url" (form req)); [|now elim Hm].
    destruct (get "img_url" (form req)); [|now elim Hi].
    destruct (get "location" (form req)); [|now elim Hl].
    destruct (get "seats" (form req)); [|now elim Hs].
    cbn [is_null].
    assert (X : existsb (same_name (Some n)) (cafes w) = true).
    { apply existsb_exists. exists r. split; [exact Hin|].
      now apply same_name_spec. }
    now rewrite X. }
  rewrite E. now repeat split.
Qed.

Lemma add_cafe_duplicate_name_is_unhandled_witness :
  let w := Sample.table [Sample.brew; Sample.bean] in
  let req := Sample.post (Sample.cafe_form "Bean There" "Soho" "2.90") in
  cafes (snd (add_cafe Sample.url req w)) = [Sample.brew; Sample.bean] /\
  status (fst (add_cafe Sample.url req w)) response_status = 500%Z.
Proof.
  intros w req.
  refine (proj2 (add_cafe_duplicate_name_is_unhandled
                   Sample.url req w Sample.bean _ _ _ _)).
  - reflexivity.
  - reflexivity.
  - simpl. auto.
  - reflexivity.
Defined.

(** X8.  [add_cafe] never touches a row that is there: after any request
    the table is the one before, with at most one row put after it, and a row
    is put exactly when the answer is the redirect.  A request that does not
    validate, and so any request that is not a submission, changes nothing at
    all and gets the add page with the form as submitted. *)
Theorem add_cafe_only_appends
    (URL : string -> bool) (req : Request) (w : World) :
  fresh_session w ->
  (exists suffix,
     cafes (snd (add_cafe URL req w)) = (cafes w ++ suffix)%list /\
     (suffix = [] /\
        fst (add_cafe URL req w) <> Val (Redirect "get_all_cafes") \/
      (exists row, suffix = [row]) /\
        fst (add_cafe URL req w) = Val (Redirect "get_all_cafes"))) /\
  (add_validates URL req = false ->
   add_cafe URL req w
     = (Val (RenderTemplate "add.html" (CtxForm (AddCafeForm req))), w)) /\
  (is_submitted req = false -> add_validates URL req = false).
Proof.
  intro P. rewrite (add_cafe_runs URL req w P). split; [|split].
  - destruct (add_validates URL req).
    + cbv zeta. destruct (check_row _ (cafes w)).
      * exists []. rewrite app_nil_r. split; [reflexivity|].
        left. split; [reflexivity|discriminate].
      * eexists [_]. split; [reflexivity|]. right. split; [|reflexivity].
        eexists. reflexivity.
    + exists []. rewrite app_nil_r. split; [reflexivity|].
      left. split; [reflexivity|discriminate].
  - intro V. now rewrite V.
  - intro S. unfold add_validates. now rewrite S.
Qed.

Lemma add_cafe_only_appends_witness :
  let w := Sample.table [Sample.brew] in
  let req := {| method := GET; args := [];
                form := Sample.cafe_form "Third Place" "Soho" "2.90";
                csrf_ok := true |} in
  add_cafe Sample.url req w
    = (Val (RenderTemplate "add.html" (CtxForm (AddCafeForm req))), w).
Proof.
  intros w req.
  destruct (add_cafe_only_appends Sample.url req w eq_refl)
    as (_ & Hinvalid & Hget).
  apply Hinvalid, Hget. reflexivity.
Defined.

Lemma find_over_app {A} (f : A -> bool) (l1 l2 : list A) :
  find f (l1 ++ l2) =
  match find f l1 with
  | Some x => Some x
  | None => find f l2
  end.
Proof.
  induction l1 as [|a l1 IH]; cbn [List.app find]; [reflexivity|].
  now destruct (f a).
Qed.



(** ** More on the read endpoints *)

Lemma NoDup_to_dict (rows : list Cafe) :
  NoDup rows -> NoDup (map to_dict rows).
Proof.
  induction rows as [|r rows IH]; intro N; cbn [map]; [constructor|].
  inversion N as [|? ? Hr Hrows]; subst. constructor; [|now apply IH].
  intro Hin. apply in_map_iff in Hin. destruct Hin as (x & Hx & Hin).
  apply to_dict_inj in Hx. now subst.
Qed.

(** X11.  The listing view shows the table as it is: one dictionary for
    each row, in the order of the rows, each with the eleven columns, and no
    two of them equal when the rows have distinct keys.  The answer is a page
    (status 200), also for an empty table. *)
Theorem get_all_cafes_lists_every_row (w : World) :
  exists dicts,
    get_all_cafes w
      = (Val (RenderTemplate "cafes.html" (CtxAllCafes dicts)), w) /\
    length dicts = length (cafes w) /\
    (forall i, nth_error dicts i = option_map to_dict (nth_error (cafes w) i)) /\
    (forall d, In d dicts -> map fst d = columns) /\
    (keyed (cafes w) -> NoDup dicts) /\
    status (fst (get_all_cafes w)) response_status = 200%Z.
Proof.
  exists (map to_dict (cafes w)). split; [reflexivity|].
  split; [apply length_map|]. split; [intro i; apply nth_error_map|].
  split.
  - intros d Hin. apply in_map_iff in Hin. destruct Hin as (r & <- & _).
    apply to_dict_columns.
  - split; [|reflexivity]. intro K. apply NoDup_to_dict.
    exact (NoDup_map_inv _ _ K).
Qed.

(** X12.  The read endpoints only read: the landing page, the listing, the
    search and the random choice leave the table, the session, the notices
    and the mail as they found them, whatever they answer; and the first three
    always answer with a page or a payload of status 200. *)
Theorem read_views_change_nothing
    (randbelow : nat -> nat) (req : Request) (w : World) :
  snd (home w) = w /\
  snd (get_all_cafes w) = w /\
  snd (get_cafe_at_location req w) = w /\
  snd (get_random_cafe randbelow w) = w /\
  status (fst (home w)) response_status = 200%Z /\
  status (fst (get_all_cafes w)) response_status = 200%Z /\
  status (fst (get_cafe_at_location req w)) response_status = 200%Z.
Proof.
  split; [reflexivity|]. split; [reflexivity|].
  assert (S : snd (get_cafe_at_location req w) = w /\
              status (fst (get_cafe_at_location req w)) response_status
                = 200%Z).
  { unfold get_cafe_at_location, bind, query_location_first.
    now destruct (find _ (cafes w)). }
  split; [apply S|]. split.
  - unfold get_random_cafe, bind, query_all, random_choice.
    destruct (cafes w) as [|r rows]; [reflexivity|].
    now destruct (nth_error _ _).
  - split; [reflexivity|]. split; [reflexivity | apply S].
Qed.



(** ** More on [delete_cafe] and the dispatcher *)

(** X14.  Among the requests that reach the view (a GET, or a POST or
    DELETE whose anti-forgery token verifies) the delete branch asks for
    nothing but the key: two such requests that both submit the configured
    key are answered alike, whatever their other fields and the state of the
    mail relay.  The delete form is never validated, so a GET that carries
    the key, with no token at all, deletes like a POST with its token. *)
Theorem delete_cafe_needs_only_the_key
    (conf : Config) (relay relay' : Relay) (req req' : Request)
    (cafe_id : Z) (w : World) :
  fresh_session w ->
  reaches_report_view req ->
  reaches_report_view req' ->
  get "api_key" (form req) = API_KEY conf ->
  get "api_key" (form req') = API_KEY conf ->
  delete_cafe conf relay req cafe_id w
    = delete_cafe conf relay' req' cafe_id w.
Proof.
  intros P _ _ K K'.
  now rewrite (delete_cafe_key conf relay req cafe_id w K P),
              (delete_cafe_key conf relay' req' cafe_id w K' P).
Qed.

Lemma delete_cafe_needs_only_the_key_witness :
  let w := Sample.table [Sample.brew; Sample.bean] in
  let quiet := {| method := GET; args := [];
                  form := [("api_key", "TopSecretAPIKey")];
                  csrf_ok := false |} in
  delete_cafe Sample.conf None quiet 1 w
    = delete_cafe Sample.conf (Some (Connect, OSError "refused"))
        (Sample.post (("api_key", "TopSecretAPIKey") :: Sample.report)) 1 w /\
  cafes (snd (delete_cafe Sample.conf None quiet 1 w)) = [Sample.bean].
Proof.
  intros w quiet. split; [|reflexivity].
  apply delete_cafe_needs_only_the_key;
    first [reflexivity | exact I].
Defined.

(** X15.  The key comparison is Python's [==] on what [request.form.get]
    and the configuration give.  When the configured key is [None], a request
    that submits no [api_key] field at all compares equal and deletes the
    target. *)
Theorem delete_cafe_with_no_key_configured
    (conf : Config) (relay : Relay) (req : Request) (cafe_id : Z) (w : World)
    (target : Cafe) :
  fresh_session w ->
  API_KEY conf = None ->
  get "api_key" (form req) = None ->
  find (same_id (Some cafe_id)) (cafes w) = Some target ->
  fst (delete_cafe conf relay req cafe_id w) = Val (Redirect "get_all_cafes") /\
  cafes (snd (delete_cafe conf relay req cafe_id w))
    = other_rows (Some cafe_id) (cafes w) /\
  ~ In target (cafes (snd (delete_cafe conf relay req cafe_id w))).
Proof.
  intros P C K F.
  rewrite (delete_cafe_key conf relay req cafe_id w); [|congruence|exact P].
  rewrite F. cbn [fst snd cafes]. repeat split.
  intro Hin. apply in_other_rows in Hin. destruct Hin as [_ Hne].
  apply find_same_id in F. now destruct F.
Qed.

Lemma delete_cafe_with_no_key_configured_witness :
  let conf := {| API_KEY := None; MAIL_SERVER := "smtp.example.org";
                 MAIL_PORT := 587; OWN_EMAIL := "admin@example.org";
                 OWN_PW := "pw" |} in
  let w := Sample.table [Sample.brew; Sample.bean] in
  cafes (snd (delete_cafe conf None plain_get 1 w)) = [Sample.bean].
Proof.
  intros conf w.
  exact (proj1 (proj2 (delete_cafe_with_no_key_configured
                         conf None plain_get 1 w Sample.brew
                         eq_refl eq_refl eq_refl eq_refl))).
Defined.

(** X16.  When neither branch applies (the key is not the configured one
    and no closure report validates) the report page is rendered with both
    forms and nothing changes.  The row is not looked up on this path, so the
    page is rendered also for a key no row has; for a request that is not a
    submission both forms are empty. *)
Theorem report_page_when_nothing_applies
    (conf : Config) (relay : Relay) (req : Request) (cafe_id : Z) (w : World) :
  get "api_key" (form req) <> API_KEY conf ->
  report_validates req = false ->
  delete_cafe conf relay req cafe_id w
    = (Val (RenderTemplate "report.html"
              (CtxReport (mkDeletForm req) (mkReportForm req))), w) /\
  (is_submitted req = false ->
   mkDeletForm req = {| d_api_key := None |} /\
   mkReportForm req = {| r_sender := None; r_message := None |}).
Proof.
  intros K V. rewrite (delete_cafe_no_key conf relay req cafe_id K).
  rewrite report_branch_runs, V. split; [reflexivity|].
  intro S. unfold mkDeletForm, mkReportForm, formdata. now rewrite S.
Qed.

Lemma report_page_when_nothing_applies_witness :
  let w := Sample.table [Sample.brew] in
  delete_cafe Sample.conf None plain_get 999 w
    = (Val (RenderTemplate "report.html"
              (CtxReport {| d_api_key := None |}
                         {| r_sender := None; r_message := None |})), w).
Proof.
  intro w.
  destruct (report_page_when_nothing_applies Sample.conf None plain_get 999 w)
    as [Hrun _]; [discriminate | reflexivity | exact Hrun].
Defined.

Lemma send_email_runs (conf : Config) (relay : Relay)
    (sender : option string) (message : string) (w : World) :
  send_email conf relay sender message w =
    (Val tt,
     {| cafes := cafes w;
        pending := pending w;
        flashed := flashed w ++ [dispatch_notice relay];
        outbox :=
          if delivered relay
          then outbox w ++ [mkEmail (OWN_EMAIL conf) (OWN_EMAIL conf)
                                    (mail_text sender message)]
          else outbox w |}).
Proof.
  destruct w as [rows ps fs ob].
  destruct relay as [[stage e]|]; [destruct stage|]; reflexivity.
Qed.

(** X17.  [send_email] never raises and never touches the table or the
    session.  It flashes exactly one notice, of category success when every
    step of the SMTP session went through and of category danger, with the
    exception, otherwise; it hands the relay at most one message, from and to
    the configured mailbox, with the subject line, the sender and the
    message. *)
Theorem send_email_never_raises
    (conf : Config) (relay : Relay) (sender : option string)
    (message : string) (w : World) :
  send_email conf relay sender message w =
    (Val tt,
     {| cafes := cafes w;
        pending := pending w;
        flashed := flashed w ++ [dispatch_notice relay];
        outbox :=
          if delivered relay
          then outbox w ++ [mkEmail (OWN_EMAIL conf) (OWN_EMAIL conf)
                                    (mail_text sender message)]
          else outbox w |}) /\
  (flash_category (dispatch_notice relay) = "success" <-> relay = None) /\
  (relay = None -> delivered relay = true).
Proof.
  split; [|split].
  - apply send_email_runs.
  - destruct relay as [[stage e]|]; cbn [dispatch_notice flash_category];
      split; intro H; try reflexivity; discriminate.
  - now intros ->.
Qed.

Lemma report_validates_fields (req : Request) :
  report_validates req = true ->
  exists sender message,
    get "sender" (form req) = Some sender /\
    get "message" (form req) = Some message.
Proof.
  unfold report_validates, validate_report, mkReportForm, formdata.
  intro H. apply andb_prop in H. destruct H as [S H]. rewrite S in H.
  cbn [r_sender r_message] in H. rewrite !process_submitted in H.
  apply andb_prop in H. destruct H as [H Hm].
  apply andb_prop in H. destruct H as [_ Hs].
  apply DataRequired_some in Hs, Hm.
  destruct Hs as (sender & Hs & _). destruct Hm as (message & Hm & _).
  now exists sender, message.
Qed.

(** X18.  The mail of a closure report.  When a report validates on a
    request without the admin key, for a row that exists, and the relay takes
    the message, exactly one mail goes out, from and to the configured
    mailbox; its text is the subject line, the submitted sender, the
    submitted message and the printable summary of the row (key, name,
    location and map link).  The visitor's address appears in the text
    only. *)
Theorem closure_report_mail
    (conf : Config) (relay : Relay) (req : Request) (cafe_id : Z) (w : World)
    (cafe : Cafe) :
  get "api_key" (form req) <> API_KEY conf ->
  report_validates req = true ->
  find (same_id (Some cafe_id)) (cafes w) = Some cafe ->
  delivered relay = true ->
  exists sender message,
    get "sender" (form req) = Some sender /\
    get "message" (form req) = Some message /\
    outbox (snd (delete_cafe conf relay req cafe_id w)) =
      (outbox w ++
       [mkEmail (OWN_EMAIL conf) (OWN_EMAIL conf)
          ("Subject: [Free-wifi-Cafes] A New Report Message!" ++ nl ++ nl
           ++ "Name: " ++ sender ++ nl ++ "-----" ++ nl
           ++ "Message:" ++ message ++ nl ++ "-----" ++ nl
           ++ "Cafe's Info: "
           ++ "<" ++ fmt (option_map str_of_int (id cafe)) ++ ", "
           ++ fmt (name cafe) ++ ", " ++ fmt (location cafe) ++ ", "
           ++ fmt (map_url cafe) ++ ">")])%list.
Proof.
  intros K V F D.
  destruct (report_validates_fields req V) as (sender & message & Hs & Hm).
  exists sender, message. split; [exact Hs|]. split; [exact Hm|].
  rewrite (delete_cafe_no_key conf relay req cafe_id K).
  rewrite report_branch_runs, V, F. unfold bind.
  rewrite send_email_runs, D, Hs, Hm. reflexivity.
Qed.

Lemma closure_report_mail_witness :
  let w := Sample.table [Sample.brew] in
  let req := Sample.post Sample.report in
  outbox (snd (delete_cafe Sample.conf None req 1 w)) =
    [mkEmail "admin@example.org" "admin@example.org"
       ("Subject: [Free-wifi-Cafes] A New Report Message!" ++ nl ++ nl
        ++ "Name: visitor@example.org" ++ nl ++ "-----" ++ nl
        ++ "Message:Closed for good." ++ nl ++ "-----" ++ nl
        ++ "Cafe's Info: "
        ++ "<1, Brew & Bytes, Peckham, https://maps.example.org/brew>")].
Proof.
  intros w req.
  destruct (closure_report_mail Sample.conf None req 1 w Sample.brew)
    as (sender & message & Hs & Hm & Hout);
    [discriminate | reflexivity | reflexivity | reflexivity |].
  injection Hs as <-. injection Hm as <-. exact Hout.
Defined.

Lemma find_other_rows (i : Z) (rows : list Cafe) :
  find (same_id (Some i)) (other_rows (Some i) rows) = None.
Proof.
  destruct (find _ (other_rows (Some i) rows)) as [c|] eqn:F; [|reflexivity].
  apply find_same_id in F. destruct F as [Hin Hid].
  apply in_other_rows in Hin. now destruct Hin.
Qed.

(** X19.  After a delete, the key is gone: the world a successful delete
    leaves has a clean session, and in it a second delete with the admin key
    and any update of the same key end in NotFound and change nothing. *)
Theorem deleted_row_is_gone
    (conf : Config) (relay : Relay) (req : Request) (cafe_id : Z) (w : World)
    (target : Cafe) :
  fresh_session w ->
  get "api_key" (form req) = API_KEY conf ->
  find (same_id (Some cafe_id)) (cafes w) = Some target ->
  let w1 := snd (delete_cafe conf relay req cafe_id w) in
  fresh_session w1 /\
  (forall relay' req',
     get "api_key" (form req') = API_KEY conf ->
     delete_cafe conf relay' req' cafe_id w1 = (Raise NotFound, w1)) /\
  (forall URL req',
     update_cafe URL req' cafe_id w1 = (Raise NotFound, w1)).
Proof.
  intros P K F. cbv zeta.
  rewrite (delete_cafe_key conf relay req cafe_id w K P), F. cbn [snd].
  set (w1 := {| cafes := other_rows (Some cafe_id) (cafes w) |}).
  assert (F1 : find (same_id (Some cafe_id)) (cafes w1) = None)
    by apply find_other_rows.
  split; [reflexivity|]. split.
  - intros relay' req' K'.
    rewrite (delete_cafe_key conf relay' req' cafe_id w1 K'); [|reflexivity].
    now rewrite F1.
  - intros URL req'. unfold update_cafe. unfold bind at 1.
    unfold get_or_404. now rewrite F1.
Qed.

Lemma deleted_row_is_gone_witness :
  let w := Sample.table [Sample.brew; Sample.bean] in
  let req := Sample.post [("api_key", "TopSecretAPIKey")] in
  let w1 := snd (delete_cafe Sample.conf None req 1 w) in
  delete_cafe Sample.conf None req 1 w1 = (Raise NotFound, w1) /\
  update_cafe Sample.url
    (Sample.post (Sample.cafe_form "Brew & Bytes" "Soho" "£3.60")) 1 w1
    = (Raise NotFound, w1).
Proof.
  intros w req w1.
  destruct (deleted_row_is_gone Sample.conf None req 1 w Sample.brew
              eq_refl eq_refl eq_refl) as (_ & Hdel & Hupd).
  split; [apply Hdel; reflexivity | apply Hupd].
Defined.

(** X20.  Delete undoes add.  After a request to add that was answered by
    the redirect, a delete with the admin key of the key the new row was
    given leaves the table exactly as it was before the add. *)
Theorem delete_undoes_add
    (URL : string -> bool) (conf : Config) (relay : Relay)
    (req del : Request) (w : World) :
  fresh_session w ->
  fst (add_cafe URL req w) = Val (Redirect "get_all_cafes") ->
  get "api_key" (form del) = API_KEY conf ->
  let w1 := snd (add_cafe URL req w) in
  let new_key := fresh_id (cafes w) in
  (exists added, cafes w1 = (cafes w ++ [added])%list /\
                 id added = Some new_key) /\
  fst (delete_cafe conf relay del new_key w1)
    = Val (Redirect "get_all_cafes") /\
  cafes (snd (delete_cafe conf relay del new_key w1)) = cafes w.
Proof.
  intros P R K. cbv zeta. revert R.
  rewrite (add_cafe_runs URL req w P).
  destruct (add_validates URL req); [|discriminate]. cbv zeta.
  destruct (check_row _ (cafes w)); [discriminate|]. intros _.
  cbn [snd]. set (added := with_id (Some (fresh_id (cafes w))) (new_cafe req)).
  assert (Hfresh : ~ In (Some (fresh_id (cafes w))) (map id (cafes w))).
  { intro Hin. apply fresh_id_above in Hin. lia. }
  assert (Hsame : same_id (Some (fresh_id (cafes w))) added = true).
  { apply same_id_spec. reflexivity. }
  split; [exists added; now split|].
  rewrite (delete_cafe_key conf relay del _ _ K); [|exact P].
  cbn [cafes set_cafes]. rewrite find_over_app.
  destruct (find (same_id (Some (fresh_id (cafes w)))) (cafes w))
    as [c|] eqn:F.
  - apply find_same_id in F. destruct F as [Hin Hid].
    exfalso. apply Hfresh. rewrite <- Hid. now apply in_map.
  - cbn [find]. rewrite Hsame. cbn [fst snd cafes]. split; [reflexivity|].
    unfold other_rows. rewrite filter_app. cbn [filter]. rewrite Hsame.
    cbn [negb]. rewrite app_nil_r.
    now apply other_rows_absent.
Qed.

Lemma delete_undoes_add_witness :
  let w := Sample.table [Sample.brew; Sample.bean] in
  let req := Sample.post (Sample.cafe_form "Third Place" "Soho" "2.90") in
  let del := Sample.post [("api_key", "TopSecretAPIKey")] in
  cafes (snd (delete_cafe Sample.conf None del 3
                (snd (add_cafe Sample.url req w))))
    = [Sample.brew; Sample.bean].
Proof.
  intros w req del.
  exact (proj2 (proj2 (delete_undoes_add Sample.url Sample.conf None req del w
                         eq_refl eq_refl eq_refl))).
Defined.

(** ** Serialization, required fields, the anti-forgery token *)

(** X21.  [to_dict] loses nothing: it has one entry for each of the eleven
    columns, under distinct names and in the order of the schema, and two
    objects with the same dictionary are the same object. *)
Theorem to_dict_is_lossless (c1 c2 : Cafe) :
  (to_dict c1 = to_dict c2 <-> c1 = c2) /\
  map fst (to_dict c1) = columns /\
  NoDup (map fst (to_dict c1)) /\
  length (to_dict c1) = 11.
Proof.
  split; [split; [apply to_dict_inj | now intros ->]|].
  split; [reflexivity|]. split; [|reflexivity].
  rewrite to_dict_columns. unfold columns.
  repeat constructor; cbn [In]; intuition discriminate.
Qed.

Lemma DataRequired_blank (data : option string) :
  data = None \/ (exists s, data = Some s /\ is_blank s = true) ->
  DataRequired data = false.
Proof.
  intros [->|(s & -> & H)]; [reflexivity|]. cbn [DataRequired].
  now rewrite H.
Qed.

(** X22.  Every field of the add form is required.  A submission in which
    one of the ten fields is missing, or is empty or white space only, does
    not validate, and neither does one whose amenity is anything but YES or
    NO; such a request stores nothing and gets the add page again. *)
Theorem add_cafe_requires_every_field
    (URL : string -> bool) (req : Request) (w : World) (field : string) :
  In field ["name"; "map_url"; "img_url"; "location"; "seats"; "has_toilet";
            "has_wifi"; "has_sockets"; "can_take_calls"; "coffee_price"] ->
  get field (form req) = None \/
  (exists s, get field (form req) = Some s /\ is_blank s = true) \/
  (In field ["has_toilet"; "has_wifi"; "has_sockets"; "can_take_calls"] /\
   get field (form req) <> Some "YES" /\ get field (form req) <> Some "NO") ->
  add_validates URL req = false /\
  add_cafe URL req w
    = (Val (RenderTemplate "add.html" (CtxForm (AddCafeForm req))), w).
Proof.
  intros Hf Hbad.
  assert (V : add_validates URL req = false).
  { destruct (add_validates URL req) eqn:V; [|reflexivity]. exfalso.
    pose proof V as V'. unfold add_validates in V'.
    apply andb_prop in V'. destruct V' as [S V'].
    rewrite (AddCafeForm_submitted req S) in V'. unfold validate_add in V'.
    cbn [f_name f_map_url f_img_url f_location f_seats f_has_toilet
         f_has_wifi f_has_sockets f_can_take_calls f_coffee_price] in V'.
    repeat (apply andb_prop in V';
            let H := fresh "V" in destruct V' as [V' H]).
    unfold string_field, url_field, select_field in *.
    repeat match goal with
    | H : _ && _ = true |- _ => apply andb_prop in H; destruct H
    end.
    destruct Hbad as [Hnone|[Hblank|(Ha & Hy & Hn)]].
    - assert (D : DataRequired (get field (form req)) = false)
        by (apply DataRequired_blank; now left).
      cbn [In] in Hf.
      repeat (destruct Hf as [<-|Hf]; [congruence|]). exact Hf.
    - assert (D : DataRequired (get field (form req)) = false)
        by (apply DataRequired_blank; now right).
      cbn [In] in Hf.
      repeat (destruct Hf as [<-|Hf]; [congruence|]). exact Hf.
    - assert (D : valid_choice (get field (form req)) = false).
      { unfold valid_choice, choices.
        destruct (get field (form req)) as [s|]; [|reflexivity].
        cbn [existsb].
        destruct (String.eqb s "YES") eqn:Y;
          [apply String.eqb_eq in Y; now subst|].
        destruct (String.eqb s "NO") eqn:N;
          [apply String.eqb_eq in N; now subst|].
        reflexivity. }
      cbn [In] in Ha.
      repeat (destruct Ha as [<-|Ha]; [congruence|]). exact Ha. }
  split; [exact V|].
  unfold add_cafe. unfold add_validates in V. now rewrite V.
Qed.

Lemma add_cafe_requires_every_field_witness :
  let w := Sample.table [Sample.brew] in
  let req := Sample.post (Sample.cafe_form "   " "Soho" "2.90") in
  add_cafe Sample.url req w
    = (Val (RenderTemplate "add.html" (CtxForm (AddCafeForm req))), w).
Proof.
  intros w req.
  refine (proj2 (add_cafe_requires_every_field Sample.url req w "name" _ _)).
  - simpl. auto.
  - right. left. exists "   ". split; reflexivity.
Defined.

(** X23.  The three forms that are validated ask for the anti-forgery token:
    on a request whose token does not verify, [add_cafe] and [update_cafe]
    write nothing and flash nothing, and the closure-report branch sends no
    mail.  (The delete branch is not behind it.) *)
Theorem no_token_no_write
    (URL : string -> bool) (conf : Config) (relay : Relay) (req : Request)
    (cafe_id : Z) (w : World) :
  csrf_ok req = false ->
  snd (add_cafe URL req w) = w /\
  snd (update_cafe URL req cafe_id w) = w /\
  (get "api_key" (form req) <> API_KEY conf ->
   snd (delete_cafe conf relay req cafe_id w) = w).
Proof.
  intro C. split; [|split].
  - unfold add_cafe, validate_add. rewrite C.
    now rewrite andb_false_r.
  - unfold update_cafe. unfold bind at 1. unfold get_or_404.
    destruct (find (same_id (Some cafe_id)) (cafes w)) as [loaded|];
      [|reflexivity].
    cbv zeta. unfold validate_update. rewrite C.
    now rewrite andb_false_r.
  - intro K. rewrite (delete_cafe_no_key conf relay req cafe_id K).
    rewrite report_branch_runs.
    unfold report_validates, validate_report. rewrite C.
    now rewrite andb_false_r.
Qed.

Lemma no_token_no_write_witness :
  let w := Sample.table [Sample.brew] in
  let req := {| method := POST; args := [];
                form := (Sample.cafe_form "Third Place" "Soho" "£2.90"
                         ++ Sample.report)%list;
                csrf_ok := false |} in
  snd (add_cafe Sample.url req w) = w /\
  snd (update_cafe Sample.url req 1 w) = w /\
  snd (delete_cafe Sample.conf None req 1 w) = w.
Proof.
  intros w req.
  destruct (no_token_no_write Sample.url Sample.conf None req 1 w eq_refl)
    as (Ha & Hu & Hd).
  split; [exact Ha|]. split; [exact Hu|]. apply Hd. discriminate.
Defined.

(** X24.  [update_cafe] never adds a row, never removes one and never
    changes a key: whatever the request and however it ends, the keys of the
    table, in order, are after it what they were before. *)
Theorem update_cafe_keeps_the_keys
    (URL : string -> bool) (req : Request) (cafe_id : Z) (w : World) :
  fresh_session w ->
  map id (cafes (snd (update_cafe URL req cafe_id w))) = map id (cafes w) /\
  length (cafes (snd (update_cafe URL req cafe_id w))) = length (cafes w).
Proof.
  intro P.
  assert (E : map id (cafes (snd (update_cafe URL req cafe_id w)))
              = map id (cafes w)).
  { rewrite (update_cafe_runs URL req cafe_id w P).
    destruct (find (same_id (Some cafe_id)) (cafes w)) as [loaded|] eqn:F;
      [|reflexivity].
    cbv zeta. destruct (update_validates URL req loaded); [|reflexivity].
    cbn [flush flush1]. destruct (check_row _ _); [reflexivity|].
    cbn [snd cafes]. rewrite map_map. apply map_ext. intro r. cbn beta.
    destruct (same_id _ r) eqn:E; [|reflexivity].
    apply find_same_id in F. destruct F as [_ Hid].
    cbn [assign id] in *. rewrite Hid in *.
    apply same_id_spec in E. congruence. }
  split; [exact E|].
  rewrite <- (length_map id), E. apply length_map.
Qed.

Lemma update_cafe_keeps_the_keys_witness :
  let w := Sample.table [Sample.brew; Sample.bean] in
  let req := Sample.post (Sample.cafe_form "Bean Here" "Dulwich" "£3.10") in
  map id (cafes (snd (update_cafe Sample.url req 2 w)))
    = [Some 1%Z; Some 2%Z].
Proof.
  intros w req.
  exact (proj1 (update_cafe_keeps_the_keys Sample.url req 2 w eq_refl)).
Defined.
